(** * wicked.kong-adapter: the Kong admin client of [src/kong/utils.ts]

    A shallow embedding of the object matcher, the availability gate, the
    statistics recorder, the retrying action executor and the composite
    API accessors, with the properties the specification states of them.

    Conventions of the embedding:
    - a JavaScript value is a [value]; an object is the list of its own
      enumerable properties in [for ... in] order, looked up by first match;
      [x.hasOwnProperty(p)] is a method call: it reaches the built-in
      own-property test of [Object.prototype] unless [x] has a property of
      its own named [hasOwnProperty], which, being data, cannot be called;
    - a string is the list of its code units, one [ascii] each;
    - a number is an IEEE 754 binary64 [float], compared with [PrimFloat.eqb]
      as [==] compares two numbers;
    - a thrown exception is the [Throw] completion; inside callback-style
      code an exception nobody catches is recorded in the world;
    - asynchronous functions keep their callback: they are written in
      continuation-passing style over the [World], the module's variables
      together with what the environment observes (requests sent, callbacks
      of the test harness, exceptions nobody caught);
    - calls to the logger ([debug], [info], [warn], [error]) and the
      [KONG_CURL] echo have no effect on anything modelled and are left out;
      the delay of [setTimeout] is not modelled, only the order of events
      in one chain of calls. *)

From Stdlib Require Import List String Ascii Bool Arith Lia ZArith.
From Stdlib Require Import PrimFloat Uint63 DecimalString DecimalNat.
From Equations Require Import Equations.
Import ListNotations.
Open Scope string_scope.

(** ** JavaScript values *)

Module Js.

(** An [Error] object: its constructor name, its message and the [status]
    field the adapter attaches to some of its errors. *)
Record JsError : Type := mkError {
  errName : string;
  errMessage : string;
  errStatus : option nat
}.

Definition newError (msg : string) : JsError := mkError "Error" msg None.
Definition typeError (msg : string) : JsError := mkError "TypeError" msg None.

(** Result of evaluating an expression that can throw. *)
Inductive completion (A : Type) : Type :=
| Normal (a : A)
| Throw (e : JsError).
Arguments Normal {A} a.
Arguments Throw {A} e.

Definition bind {A B} (c : completion A) (k : A -> completion B) : completion B :=
  match c with
  | Normal a => k a
  | Throw e => Throw e
  end.

Notation "x <- c ;; k" := (bind c (fun x => k))
  (at level 61, c at next level, right associativity).

#[local] Unset Elimination Schemes.
Inductive value : Type :=
| VUndefined
| VNull
| VBool (b : bool)
| VNum (x : float)
| VStr (s : string)
| VArr (elems : list value)
| VObj (props : list (string * value)).
#[local] Set Elimination Schemes.

(** Induction on a value with the hypothesis for every element of an array
    and every property value of an object. *)
Definition value_ind (P : value -> Prop)
  (Hundef : P VUndefined) (Hnull : P VNull)
  (Hbool : forall b, P (VBool b)) (Hnum : forall x, P (VNum x))
  (Hstr : forall s, P (VStr s))
  (Harr : forall elems, Forall P elems -> P (VArr elems))
  (Hobj : forall props, Forall (fun kv => P (snd kv)) props -> P (VObj props))
  : forall v, P v :=
  fix go (v : value) : P v :=
    match v with
    | VUndefined => Hundef
    | VNull => Hnull
    | VBool b => Hbool b
    | VNum x => Hnum x
    | VStr s => Hstr s
    | VArr elems =>
        Harr elems
          ((fix all (l : list value) : Forall P l :=
              match l with
              | [] => Forall_nil P
              | x :: r => Forall_cons x (go x) (all r)
              end) elems)
    | VObj props =>
        Hobj props
          ((fix all (l : list (string * value)) : Forall (fun kv => P (snd kv)) l :=
              match l with
              | [] => Forall_nil _
              | kv :: r => Forall_cons kv (go (snd kv)) (all r)
              end) props)
    end.

(** The results of [typeof] on the values above. *)
Inductive jstype : Type :=
| TyUndefined | TyObject | TyBoolean | TyNumber | TyString.

Definition typeof (v : value) : jstype :=
  match v with
  | VUndefined => TyUndefined
  | VNull | VArr _ | VObj _ => TyObject
  | VBool _ => TyBoolean
  | VNum _ => TyNumber
  | VStr _ => TyString
  end.

Definition jstype_eqb (a b : jstype) : bool :=
  match a, b with
  | TyUndefined, TyUndefined | TyObject, TyObject | TyBoolean, TyBoolean
  | TyNumber, TyNumber | TyString, TyString => true
  | _, _ => false
  end.

(** A natural number in decimal, as string concatenation and property
    names render it. *)
Definition natToString (n : nat) : string :=
  NilEmpty.string_of_uint (Nat.to_uint n).

(** The canonical numeric property name of an array index. *)
Definition index_key (i : nat) : string := natToString i.

Definition numOfNat (n : nat) : float :=
  PrimFloat.of_uint63 (Uint63.of_Z (Z.of_nat n)).

(** First binding of [k] in a property list. *)
Fixpoint lookup (k : string) (props : list (string * value)) : option value :=
  match props with
  | [] => None
  | (k', v) :: rest => if String.eqb k k' then Some v else lookup k rest
  end.

(** The index denoted by [k] among the first [n] indices, if any. *)
Definition index_of (k : string) (n : nat) : option nat :=
  find (fun i => String.eqb k (index_key i)) (seq 0 n).

(** The characters of a string, each as a one-character string. *)
Fixpoint chars (s : string) : list value :=
  match s with
  | EmptyString => []
  | String c rest => VStr (String c EmptyString) :: chars rest
  end.

(** Own enumerable properties, in the order [for (p in v)] visits them. *)
Definition indexed (elems : list value) : list (string * value) :=
  combine (map index_key (seq 0 (List.length elems))) elems.

Definition enumerable (v : value) : list (string * value) :=
  match v with
  | VObj props => props
  | VArr elems => indexed elems
  | VStr s => indexed (chars s)
  | _ => []
  end.

Definition nullish_message (what k : string) : string :=
  "Cannot read property '" ++ k ++ "' of " ++ what.

(** The built-in own-property test, [Object.prototype.hasOwnProperty]:
    arrays and strings own their indices and [length]. *)
Definition ownsProperty (v : value) (k : string) : bool :=
  match v with
  | VObj props => match lookup k props with Some _ => true | None => false end
  | VArr elems =>
      match index_of k (List.length elems) with
      | Some _ => true
      | None => String.eqb k "length"
      end
  | VStr s =>
      match index_of k (String.length s) with
      | Some _ => true
      | None => String.eqb k "length"
      end
  | _ => false
  end.

(** A record with a property of its own named [hasOwnProperty]: on it the
    name no longer reaches the built-in. *)
Definition shadowed (v : value) : bool :=
  match v with
  | VObj props =>
      match lookup "hasOwnProperty" props with Some _ => true | None => false end
  | _ => false
  end.

(** What calling a property that holds data throws, at the call
    [kongObject.hasOwnProperty(prop)] of the matcher. *)
Definition notAFunction : JsError :=
  typeError "kongObject.hasOwnProperty is not a function".

(** [v.hasOwnProperty(k)], a method call: it throws on [null] and
    [undefined], and on a record that has its own [hasOwnProperty], whose
    value is none of a function; everywhere else it is the built-in. *)
Definition hasOwnProperty (v : value) (k : string) : completion bool :=
  match v with
  | VUndefined => Throw (typeError (nullish_message "undefined" "hasOwnProperty"))
  | VNull => Throw (typeError (nullish_message "null" "hasOwnProperty"))
  | _ => if shadowed v then Throw notAFunction else Normal (ownsProperty v k)
  end.

Definition get_indexed (elems : list value) (k : string) : value :=
  match index_of k (List.length elems) with
  | Some i => nth i elems VUndefined
  | None =>
      if String.eqb k "length" then VNum (numOfNat (List.length elems))
      else VUndefined
  end.

(** [v[k]] for an own property, [undefined] where there is none. *)
Definition getProp (v : value) (k : string) : completion value :=
  match v with
  | VUndefined => Throw (typeError (nullish_message "undefined" k))
  | VNull => Throw (typeError (nullish_message "null" k))
  | VObj props =>
      Normal (match lookup k props with Some x => x | None => VUndefined end)
  | VArr elems => Normal (get_indexed elems k)
  | VStr s => Normal (get_indexed (chars s) k)
  | VBool _ | VNum _ => Normal VUndefined
  end.

(** [a == b] for two values of one primitive type (where [==] and [===]
    agree); on two objects [==] is identity, which the matcher never asks. *)
Definition looseEq (a b : value) : bool :=
  match a, b with
  | VUndefined, VUndefined => true
  | VNull, VNull => true
  | VBool x, VBool y => Bool.eqb x y
  | VNum x, VNum y => PrimFloat.eqb x y
  | VStr x, VStr y => String.eqb x y
  | _, _ => false
  end.

(** [obj[k] = v] on a record: the property keeps its place when it exists
    and is added last otherwise. *)
Fixpoint setProp (k : string) (v : value) (props : list (string * value))
  : list (string * value) :=
  match props with
  | [] => [(k, v)]
  | (k', v') :: rest =>
      if String.eqb k k' then (k, v) :: rest else (k', v') :: setProp k v rest
  end.

End Js.
Import Js.

(** ** The object matcher *)

Module Matcher.

(** The body of the loop of [matchObjectsInternal] for the property [prop]
    of [apiObject], whose value is [a]: [Normal true] goes on with the next
    property, [Normal false] is [return false]. [recurse] is the recursive
    call on [a]. *)
Definition matchProperty (recurse : value -> completion bool)
  (kongObject : value) (prop : string) (a : value) : completion bool :=
  own <- hasOwnProperty kongObject prop ;;
  if negb own then Normal false
  else
    k <- getProp kongObject prop ;;
    if negb (jstype_eqb (typeof a) (typeof k)) then Normal false
    else if jstype_eqb (typeof a) TyObject then recurse k
    else if negb (looseEq a k) then Normal false
    else Normal true.

Definition andThen (c : completion bool) (rest : completion bool) : completion bool :=
  ok <- c ;; if ok then rest else Normal false.

Fixpoint matchObjectsInternal (apiObject kongObject : value) : completion bool :=
  match apiObject with
  | VObj props =>
      (fix loop (ps : list (string * value)) : completion bool :=
         match ps with
         | [] => Normal true
         | (prop, a) :: rest =>
             andThen (matchProperty (matchObjectsInternal a) kongObject prop a)
                     (loop rest)
         end) props
  | VArr elems =>
      (fix loop (i : nat) (es : list value) : completion bool :=
         match es with
         | [] => Normal true
         | a :: rest =>
             andThen (matchProperty (matchObjectsInternal a) kongObject (index_key i) a)
                     (loop (S i) rest)
         end) 0 elems
  | VStr s =>
      (* the value of an index of a string is a string: the branch of the
         body that recurses is never taken *)
      (fix loop (ps : list (string * value)) : completion bool :=
         match ps with
         | [] => Normal true
         | (prop, a) :: rest =>
             andThen (matchProperty (fun _ => Normal true) kongObject prop a)
                     (loop rest)
         end) (indexed (chars s))
  | _ => Normal true
  end.

(** The loop [for (prop in apiObject)] over the properties [ps], with the
    loop body as a parameter: the shape the three loops above share. *)
Fixpoint forIn (body : string -> value -> completion bool)
  (ps : list (string * value)) : completion bool :=
  match ps with
  | [] => Normal true
  | (prop, a) :: rest => andThen (body prop a) (forIn body rest)
  end.

(** The body of the loop of [matchObjectsInternal]. *)
Definition body (kongObject : value) (prop : string) (a : value) : completion bool :=
  matchProperty (matchObjectsInternal a) kongObject prop a.

(** [observed] owns the property [prop], with value [k]:
    [observed.hasOwnProperty(prop)] is [true] and [observed[prop]] is [k]. *)
Definition ownProperty (observed : value) (prop : string) (k : value) : Prop :=
  hasOwnProperty observed prop = Normal true /\ getProp observed prop = Normal k.

(** Containment as the specification words it: [observed] has, at every
    depth, every property of [desired], with the same run-time type and,
    where the value is not itself structured, a loosely equal value. What
    else [observed] has is not looked at. *)
#[local] Unset Elimination Schemes.
Inductive contains : value -> value -> Prop :=
| contains_every (desired observed : value) :
    (forall prop a, In (prop, a) (enumerable desired) ->
       exists k, ownProperty observed prop k /\ typeof a = typeof k /\
         ((typeof a = TyObject /\ contains a k) \/
          (typeof a <> TyObject /\ looseEq a k = true))) ->
    contains desired observed.
#[local] Set Elimination Schemes.

(** [observed] is [desired] plus extra properties, at any depth: equal
    where the value is not structured (a number equal to itself, which
    [NaN] is not), more elements after those of an array, more properties
    besides those of a record. *)
#[local] Unset Elimination Schemes.
Inductive extends : value -> value -> Prop :=
| extends_undefined : extends VUndefined VUndefined
| extends_null : extends VNull VNull
| extends_bool b : extends (VBool b) (VBool b)
| extends_num x : PrimFloat.eqb x x = true -> extends (VNum x) (VNum x)
| extends_str s : extends (VStr s) (VStr s)
| extends_arr elems elems' extra :
    Forall2 extends elems elems' ->
    extends (VArr elems) (VArr (elems' ++ extra))
| extends_obj props props' :
    (forall prop a, In (prop, a) props ->
       exists k, lookup prop props' = Some k /\ extends a k) ->
    extends (VObj props) (VObj props').
#[local] Set Elimination Schemes.

End Matcher.

(** ** Module state and its environment *)

Module Kong.

Inductive Method : Type := GET | POST | DELETE | PATCH.

Definition Method_eqb (a b : Method) : bool :=
  match a, b with
  | GET, GET | POST, POST | DELETE, DELETE | PATCH, PATCH => true
  | _, _ => false
  end.

Definition methodName (m : Method) : string :=
  match m with
  | GET => "GET" | POST => "POST" | DELETE => "DELETE" | PATCH => "PATCH"
  end.

(** One entry of [_statistics.actions]. *)
Record Action : Type := mkAction {
  actMethod : Method;
  actUrl : string;
  actBody : value
}.

(** [SyncStatistics]: the two lists of [defaultStatistics()] and the
    counters [kongActionStat] adds under the method names ([None]: the
    property does not exist yet). *)
Record SyncStatistics : Type := mkStatistics {
  actions : list Action;
  failedComparisons : list (value * value);
  counter : Method -> option nat
}.

Definition defaultStatistics : SyncStatistics :=
  mkStatistics [] [] (fun _ => None).

(** The options object handed to [request]. *)
Record Request : Type := mkRequest {
  reqMethod : Method;
  reqUrl : string;
  reqTimeout : nat;
  reqJson : bool;
  reqBody : option value
}.

(** What [request] passes to its callback: an error of the transport, or a
    response with its status code and body. *)
Inductive Reply : Type :=
| TransportError (err : JsError)
| Response (statusCode : nat) (apiBody : value).

(** The arguments of a Node-style callback: [callback(err)] or
    [callback(null, data)]. *)
Inductive CbArgs : Type :=
| CbErr (err : JsError)
| CbOk (data : value).

Record World : Type := mkWorld {
  kongUrl : option string;            (* _kongUrl, None for null *)
  kongAvailable : bool;               (* _kongAvailable *)
  kongMessage : option string;        (* _kongMessage, None for null *)
  kongClusterStatus : value;          (* _kongClusterStatus *)
  statistics : SyncStatistics;        (* _statistics *)
  keepChangingActions : bool;         (* _keepChangingActions *)
  sent : list Request;                (* requests handed to [request], oldest first *)
  delivered : list CbArgs;            (* what the recording callback received *)
  uncaught : list JsError             (* exceptions that no caller caught *)
}.

(** The state of the module when it is loaded. *)
Definition initialWorld : World :=
  mkWorld None true None VNull defaultStatistics false [] [] [].

Definition withAvailable (b : bool) (w : World) : World :=
  mkWorld (kongUrl w) b (kongMessage w) (kongClusterStatus w) (statistics w)
          (keepChangingActions w) (sent w) (delivered w) (uncaught w).

Definition withStatistics (s : SyncStatistics) (w : World) : World :=
  mkWorld (kongUrl w) (kongAvailable w) (kongMessage w) (kongClusterStatus w) s
          (keepChangingActions w) (sent w) (delivered w) (uncaught w).

Definition withKeep (b : bool) (w : World) : World :=
  mkWorld (kongUrl w) (kongAvailable w) (kongMessage w) (kongClusterStatus w)
          (statistics w) b (sent w) (delivered w) (uncaught w).

Definition withSent (l : list Request) (w : World) : World :=
  mkWorld (kongUrl w) (kongAvailable w) (kongMessage w) (kongClusterStatus w)
          (statistics w) (keepChangingActions w) l (delivered w) (uncaught w).

Definition withDelivered (l : list CbArgs) (w : World) : World :=
  mkWorld (kongUrl w) (kongAvailable w) (kongMessage w) (kongClusterStatus w)
          (statistics w) (keepChangingActions w) (sent w) l (uncaught w).

Definition withUncaught (l : list JsError) (w : World) : World :=
  mkWorld (kongUrl w) (kongAvailable w) (kongMessage w) (kongClusterStatus w)
          (statistics w) (keepChangingActions w) (sent w) (delivered w) l.

Definition setKongUrl (url : string) (w : World) : World :=
  mkWorld (Some url) (kongAvailable w) (kongMessage w) (kongClusterStatus w)
          (statistics w) (keepChangingActions w) (sent w) (delivered w) (uncaught w).

(** [getKongUrl]: the empty string is falsy like [null]. *)
Definition getKongUrl (w : World) : completion string :=
  match kongUrl w with
  | None | Some EmptyString =>
      Throw (newError "utils.setKongUrl was never called, kong URL is yet unknown")
  | Some url => Normal url
  end.

Definition markKongAvailable (available : bool) (message : option string)
  (clusterStatus : value) (w : World) : World :=
  mkWorld (kongUrl w) available message clusterStatus (statistics w)
          (keepChangingActions w) (sent w) (delivered w) (uncaught w).

Definition getKongClusterStatus (w : World) : value := kongClusterStatus w.
Definition isKongAvailable (w : World) : bool := kongAvailable w.

(** [matchObjects]: the comparison, and the failed pair kept when the
    debugging flag is on. An exception of the comparison leaves before the
    pair is pushed. *)
Definition matchObjects (apiObject kongObject : value) (w : World)
  : World * completion bool :=
  match Matcher.matchObjectsInternal apiObject kongObject with
  | Throw e => (w, Throw e)
  | Normal true => (w, Normal true)
  | Normal false =>
      if keepChangingActions w then
        (withStatistics
           (mkStatistics (actions (statistics w))
                         (failedComparisons (statistics w) ++ [(apiObject, kongObject)])
                         (counter (statistics w))) w,
         Normal false)
      else (w, Normal false)
  end.

Definition resetStatistics (keep : bool) (w : World) : World :=
  withKeep (if keep then true else false) (withStatistics defaultStatistics w).

(** [getStatistics] returns the live object [_statistics]; the state read
    here is its content at the time of the call. *)
Definition getStatistics (w : World) : World * SyncStatistics :=
  (withKeep false w, statistics w).

Definition bump (m : Method) (c : Method -> option nat) : Method -> option nat :=
  fun m' =>
    if Method_eqb m' m then
      Some (S (match c m with Some n => n | None => 0 end))
    else c m'.

Definition kongActionStat (method : Method) (url : string) (body : value)
  (w : World) : World :=
  let s := statistics w in
  let counted := mkStatistics (actions s) (failedComparisons s) (bump method (counter s)) in
  let logged :=
    if keepChangingActions w && negb (Method_eqb method GET) then
      mkStatistics (actions counted ++ [mkAction method url body])
                   (failedComparisons counted) (counter counted)
    else counted in
  withStatistics logged w.

(** What the adapter takes from outside this file: the HTTP transport
    behind [request] (its reply to a request, given the requests sent
    before), [JSON.parse], the rendering of a number in a string, and the
    two translators of [wicked-sdk]. *)
Class Env : Type := {
  transport : list Request -> Request -> Reply;
  JSON_parse : string -> completion value;
  numberToString : float -> string;
  kongApiToServiceRoute : value -> list (string * value) * list (string * value);
  kongServiceRouteToApi : value -> value -> completion value
}.

Definition KONG_TIMEOUT : nat := 5000.
Definition KONG_RETRY_DELAY : nat := 2000.
Definition KONG_MAX_ATTEMPTS : nat := 10.

(** A computation that ends by calling back or by throwing. *)
Definition Proc : Type := World -> World.
Definition Callback : Type := CbArgs -> Proc.

(** An exception that leaves the call chain. *)
Definition throw (e : JsError) : Proc :=
  fun w => withUncaught (uncaught w ++ [e]) w.

(** The callback of a test harness: it keeps what it is called with. *)
Definition record : Callback :=
  fun args w => withDelivered (delivered w ++ [args]) w.

(** How a call chain ends: by calling its callback, or by an exception. *)
Inductive Outcome : Type :=
| Calls (args : CbArgs)
| Throws (e : JsError).

Definition finish (o : Outcome) (callback : Callback) : Proc :=
  match o with
  | Calls args => callback args
  | Throws e => throw e
  end.

(** Truthiness, as [if (x)] and [!x] see a value. *)
Definition truthy (v : value) : bool :=
  match v with
  | VUndefined | VNull => false
  | VBool b => b
  | VNum x => negb (PrimFloat.eqb x PrimFloat.zero || PrimFloat.is_nan x)
  | VStr s => negb (String.eqb s "")
  | VArr _ | VObj _ => true
  end.

(** [a === b] against a number literal. *)
Definition strictEqNum (a : value) (n : float) : bool :=
  match a with
  | VNum x => PrimFloat.eqb x n
  | _ => false
  end.

Section Adapter.
Context {env : Env}.

(** A value inside a template literal or a string concatenation. *)
Fixpoint toString (v : value) : string :=
  match v with
  | VUndefined => "undefined"
  | VNull => "null"
  | VBool true => "true"
  | VBool false => "false"
  | VNum x => numberToString x
  | VStr s => s
  | VArr elems =>
      (fix join (first : bool) (es : list value) : string :=
         match es with
         | [] => ""
         | e :: rest =>
             (if first then "" else ",") ++
             (match e with VUndefined | VNull => "" | _ => toString e end) ++
             join false rest
         end) true elems
  | VObj _ => "[object Object]"
  end.

Definition getJson (ob : value) : completion value :=
  match ob with
  | VStr EmptyString => Normal VNull
  | VStr s => JSON_parse s
  | _ => Normal ob
  end.

Definition messageText (m : option string) : string :=
  match m with Some s => s | None => "null" end.

(** The error of a call made while the gate is closed. *)
Definition unavailableError (w : World) : JsError :=
  mkError "Error" ("kong admin end point not available: " ++ messageText (kongMessage w))
          (Some 500).

(** The error of a response with another status code than expected. *)
Definition statusError (method : Method) (url : string)
  (statusCode expectedStatusCode : nat) : JsError :=
  mkError "Error"
    ("kongAction " ++ methodName method ++ " on " ++ url ++
     " did not return the expected status code (got: " ++ natToString statusCode ++
     ", expected: " ++ natToString expectedStatusCode ++ ").")
    (Some statusCode).

(** The retries [tryRequest(attempt)] can still ask for: the measure of
    its recursion. *)
Definition attemptsLeft (attempt : nat) : nat := S KONG_MAX_ATTEMPTS - attempt.

(** [tryRequest(attempt)]: [request] puts [methodBody] on the wire and
    hands the reply to the handler, which retries through [setTimeout]
    until [attempt] has passed [KONG_MAX_ATTEMPTS]. *)
Equations? tryRequest (methodBody : Request) (method : Method) (url : string)
  (expectedStatusCode : nat) (callback : Callback) (attempt : nat) (w : World)
  : World by wf (attemptsLeft attempt) lt :=
  tryRequest methodBody method url expectedStatusCode callback attempt w
    with transport (sent w) methodBody := {
    | TransportError err with gt_dec attempt KONG_MAX_ATTEMPTS := {
        | left giveUp =>
            callback (CbErr err)
              (withAvailable true (withSent (sent w ++ [methodBody]) w))
        | right again =>
            tryRequest methodBody method url expectedStatusCode callback (attempt + 1)
              (withAvailable false (withSent (sent w ++ [methodBody]) w)) }
    | Response statusCode apiBody =>
        let w1 := withAvailable true (withSent (sent w ++ [methodBody]) w) in
        if negb (Nat.eqb expectedStatusCode statusCode) then
          callback (CbErr (statusError method url statusCode expectedStatusCode)) w1
        else
          match getJson apiBody with
          | Normal data => callback (CbOk data) w1
          | Throw e => throw e w1
          end }.
Proof. unfold attemptsLeft, KONG_MAX_ATTEMPTS in *. lia. Qed.

(** The options of the request: a body only for the verbs that send one. *)
Definition methodBodyOf (method : Method) (kongUrl url : string) (body : value)
  : Request :=
  if negb (Method_eqb method DELETE) && negb (Method_eqb method GET)
  then mkRequest method (kongUrl ++ url) KONG_TIMEOUT true (Some body)
  else mkRequest method (kongUrl ++ url) KONG_TIMEOUT false None.

Definition kongAction (method : Method) (url : string) (body : value)
  (expectedStatusCode : nat) (callback : Callback) : Proc :=
  fun w0 =>
    let w := kongActionStat method url body w0 in
    if negb (kongAvailable w) then callback (CbErr (unavailableError w)) w
    else
      match getKongUrl w with
      | Throw e => throw e w
      | Normal kongUrl =>
          tryRequest (methodBodyOf method kongUrl url body)
                     method url expectedStatusCode callback 0 w
      end.

Definition kongGet (url : string) (callback : Callback) : Proc :=
  kongAction GET url VNull 200 callback.

Definition kongPost (url : string) (body : value) (callback : Callback) : Proc :=
  kongAction POST url body 201 callback.

Definition kongDelete (url : string) (callback : Callback) : Proc :=
  kongAction DELETE url VNull 204 callback.

Definition kongPatch (url : string) (body : value) (callback : Callback) : Proc :=
  kongAction PATCH url body 200 callback.

(** *** Typed wrappers: services and routes *)

Definition kongPostService (service : list (string * value)) (callback : Callback) : Proc :=
  kongPost "services" (VObj service) callback.

Definition kongPatchService (serviceId : string) (service : list (string * value))
  (callback : Callback) : Proc :=
  kongPatch ("services/" ++ serviceId) (VObj service) callback.

Definition kongDeleteService (serviceId : string) (callback : Callback) : Proc :=
  kongDelete ("services/" ++ serviceId) callback.

Definition kongPostRoute (route : list (string * value)) (callback : Callback) : Proc :=
  kongPost "routes" (VObj route) callback.

Definition kongPatchRoute (routeId : value) (route : list (string * value))
  (callback : Callback) : Proc :=
  kongPatch ("routes/" ++ toString routeId) (VObj route) callback.

Definition kongDeleteRoute (routeId : value) (callback : Callback) : Proc :=
  kongDelete ("routes/" ++ toString routeId) callback.

(** The body of the callback of [kongGetRouteForService] on a successful
    listing: [routes.data.length] and [routes.data[0]]. *)
Definition firstRoute (routes : value) : completion value :=
  data <- getProp routes "data" ;;
  len <- getProp data "length" ;;
  if strictEqNum len PrimFloat.zero then Normal VNull
  else if strictEqNum len PrimFloat.one then getProp data "0"
  else getProp data "0".

Definition kongGetRouteForService (serviceId : string) (callback : Callback) : Proc :=
  kongGet ("services/" ++ serviceId ++ "/routes")
    (fun args =>
       match args with
       | CbErr err => callback (CbErr err)
       | CbOk routes =>
           match firstRoute routes with
           | Normal route => callback (CbOk route)
           | Throw e => throw e
           end
       end).

(** *** Composite APIs: a service and its route *)

(** [async.waterfall] of the three tasks of [kongPostApi]: a task that
    calls back with an error goes straight to the final callback. The
    closure variables [persistedService] and [persistedRoute] are the [s]
    and [r] in scope of the last step. *)
Definition kongPostApi (apiConfig : value) (callback : Callback) : Proc :=
  let (service, route) := kongApiToServiceRoute apiConfig in
  kongPostService service
    (fun args1 =>
       match args1 with
       | CbErr err => callback (CbErr err)
       | CbOk s =>
           match getProp s "id" with
           | Throw e => throw e
           | Normal id =>
               kongPostRoute (setProp "service" (VObj [("id", id)]) route)
                 (fun args2 =>
                    match args2 with
                    | CbErr err => callback (CbErr err)
                    | CbOk r =>
                        match kongServiceRouteToApi s r with
                        | Normal api => callback (CbOk api)
                        | Throw e => throw e
                        end
                    end)
           end
       end).

(** The final callback of [async.series] in [kongPatchApi]: it does not
    look at [err]; [results] holds [undefined] for a task that failed or
    never ran. *)
Definition patchDone (persistedService persistedRoute : value) (callback : Callback) : Proc :=
  match kongServiceRouteToApi persistedService persistedRoute with
  | Normal api => callback (CbOk api)
  | Throw e => throw e
  end.

Definition kongPatchApi (apiId : string) (apiConfig : value) (callback : Callback) : Proc :=
  let (service0, route0) := kongApiToServiceRoute apiConfig in
  let service := setProp "id" (VStr apiId) service0 in
  kongGetRouteForService apiId
    (fun args =>
       match args with
       | CbErr err => fun w => w                     (* return err; *)
       | CbOk existingRoute =>
           if negb (truthy existingRoute) then
             callback (CbErr (newError ("Could not retrieve route for service " ++ apiId)))
           else
             match (routeId <- getProp existingRoute "id" ;;
                    ref <- getProp existingRoute "service" ;;
                    refId <- getProp ref "id" ;;
                    Normal (routeId, refId)) with
             | Throw e => throw e
             | Normal (routeId, refId) =>
                 let route :=
                   setProp "service" (VObj [("id", refId)])
                     (setProp "id" routeId route0) in
                 kongPatchService apiId service
                   (fun args1 =>
                      match args1 with
                      | CbErr _ => patchDone VUndefined VUndefined callback
                      | CbOk persistedService =>
                          kongPatchRoute routeId route
                            (fun args2 =>
                               match args2 with
                               | CbErr _ => patchDone persistedService VUndefined callback
                               | CbOk persistedRoute =>
                                   patchDone persistedService persistedRoute callback
                               end)
                      end)
             end
       end).

Definition kongDeleteApi (apiId : string) (callback : Callback) : Proc :=
  kongGetRouteForService apiId
    (fun args =>
       match args with
       | CbErr err => callback (CbErr err)
       | CbOk route =>
           match getProp route "id" with
           | Throw e => throw e
           | Normal routeId =>
               kongDeleteRoute routeId
                 (fun args1 =>
                    match args1 with
                    | CbErr err => callback (CbErr err)
                    | CbOk _ => kongDeleteService apiId callback
                    end)
           end
       end).

(** *** Vocabulary of the properties *)

(** The world after [req] went out [n] times in a row from [w], with the
    gate left at [av]. *)
Definition after (av : bool) (req : Request) (n : nat) (w : World) : World :=
  withAvailable av (withSent (sent w ++ repeat req n) w).

(** The request [kongAction] builds in [w]. *)
Definition requestOf (method : Method) (url : string) (body : value) (w : World)
  : Request :=
  methodBodyOf method (match kongUrl w with Some u => u | None => "" end) url body.

(** What the handler does with a response. *)
Definition onResponse (method : Method) (url : string) (expected statusCode : nat)
  (apiBody : value) : Outcome :=
  if negb (Nat.eqb expected statusCode) then
    Calls (CbErr (statusError method url statusCode expected))
  else
    match getJson apiBody with
    | Normal data => Calls (CbOk data)
    | Throw e => Throws e
    end.

(** The attempts [0 .. k-1] of a request started in [w] all fail in the
    transport. *)
Definition failing (req : Request) (w : World) (k : nat) : Prop :=
  forall i, i < k -> exists err, transport (sent w ++ repeat req i) req = TransportError err.

End Adapter.

End Kong.

(** ** Examples: values and scripted gateways *)

Module Examples.
Import Kong.

Definition refused : JsError :=
  mkError "Error" "connect ECONNREFUSED 127.0.0.1:8001" None.

Definition syntaxError : JsError :=
  mkError "SyntaxError" "Unexpected token in JSON" None.

(** A transport playing a script: the request number [i] of a run gets
    the reply number [i], and the connection is refused once the script
    is over. Texts are parsed by table. The translators split an API into
    its [service] and [route] properties and put them together again. *)
Definition scripted (table : list (string * value)) (script : list Reply) : Env := {|
  transport := fun history _ => nth (List.length history) script (TransportError refused);
  JSON_parse := fun text =>
    match lookup text table with
    | Some v => Normal v
    | None => Throw syntaxError
    end;
  numberToString := fun _ => "0";
  kongApiToServiceRoute := fun api =>
    (match lookup "service" (enumerable api) with Some (VObj s) => s | _ => [] end,
     match lookup "route" (enumerable api) with Some (VObj r) => r | _ => [] end);
  kongServiceRouteToApi := fun service route =>
    match service, route with
    | VObj _, VObj _ => Normal (VObj [("service", service); ("route", route)])
    | _, _ => Throw (typeError "Cannot read property 'protocol' of undefined")
    end
|}.

Definition kongBase : string := "http://kong:8001/".

(** The module right after [setKongUrl]. *)
Definition ready : World := setKongUrl kongBase initialWorld.

Definition petstore : value :=
  VObj [("service", VObj [("name", VStr "petstore"); ("host", VStr "petstore.local")]);
        ("route", VObj [("paths", VArr [VStr "/petstore"])])].

Definition noRoutesText : string := "{ data: [] }".
Definition noRoutes : value := VObj [("data", VArr [])].

(** A desired route, and what the gateway answers for it: the same
    properties and some of its own, also inside [service]. *)
Definition desiredRoute : value :=
  VObj [("paths", VArr [VStr "/petstore"]);
        ("strip_path", VBool true);
        ("regex_priority", VNum 0%float);
        ("service", VObj [("id", VStr "s-1"); ("tags", VNull)])].

Definition observedRoute : value :=
  VObj [("id", VStr "r-1");
        ("created_at", VNum 1540000000%float);
        ("paths", VArr [VStr "/petstore"; VStr "/store"]);
        ("service", VObj [("tags", VObj []); ("id", VStr "s-1"); ("name", VStr "petstore")]);
        ("regex_priority", VNum 0%float);
        ("strip_path", VBool true)].

(** A desired object whose first property is a record where the gateway
    answered [null], and whose second property the gateway lacks. *)
Definition desiredPlugin : value :=
  VObj [("config", VObj [("limit", VNum 5%float)]); ("enabled", VBool true)].

Definition observedPlugin : value :=
  VObj [("config", VNull)].

(** A gateway that refuses eleven connections and then answers. *)
Definition recovering : Env :=
  scripted [] (repeat (TransportError refused) 11 ++ [Response 200 (VStr "")]).

(** One refused connection, then a 404. *)
Definition notFound : Env :=
  scripted [] [TransportError refused; Response 404 (VStr "Not found")].

(** The gate closed by [markKongAvailable], with recording on. *)
Definition closed : World :=
  markKongAvailable false (Some "connection refused") VNull (resetStatistics true ready).

(** The service is created, the route is refused with a 409. *)
Definition routeConflict : Env :=
  scripted [] [Response 201 (VObj [("id", VStr "s-1"); ("name", VStr "petstore")]);
               Response 409 (VObj [("message", VStr "conflict")])].

(** The gateway lists no route for the service. *)
Definition orphaned : Env :=
  scripted [(noRoutesText, noRoutes)] [Response 200 (VStr noRoutesText)].

(** The listing of routes fails with a 500. *)
Definition lookupFails : Env :=
  scripted [] [Response 500 (VStr "An unexpected error occurred")].

Definition oneRouteText : string := "{ data: [ r-1 ] }".
Definition oneRoute : value :=
  VObj [("data", VArr [VObj [("id", VStr "r-1");
                             ("service", VObj [("id", VStr "s-1")])]])].

(** The route is found, the PATCH of the service is refused with a 400. *)
Definition patchRefused : Env :=
  scripted [(oneRouteText, oneRoute)]
           [Response 200 (VStr oneRouteText);
            Response 400 (VObj [("message", VStr "schema violation")])].

(** The route is found, and both deletions are answered with a 204. *)
Definition deleting : Env :=
  scripted [(oneRouteText, oneRoute)]
           [Response 200 (VStr oneRouteText); Response 204 (VStr ""); Response 204 (VStr "")].

(** Three refused connections, then the status of the gateway. *)
Definition waking : Env :=
  scripted [("{ database: ok }", VObj [("database", VStr "ok")])]
           (repeat (TransportError refused) 3 ++ [Response 200 (VStr "{ database: ok }")]).

(** The desired route again as the gateway could answer it: with an [id]
    and a date of its own, one more path and a name inside [service]. *)
Definition extendedRoute : value :=
  VObj [("id", VStr "r-1");
        ("created_at", VNum 1540000000%float);
        ("paths", VArr ([VStr "/petstore"] ++ [VStr "/store"]));
        ("strip_path", VBool true);
        ("regex_priority", VNum 0%float);
        ("service", VObj [("id", VStr "s-1"); ("tags", VNull); ("name", VStr "petstore")])].



End Examples.

(** ** Shapes of values *)

Module Shape.

(** The property names of every record inside [v] are pairwise distinct. *)
Fixpoint wellFormed (v : value) : bool :=
  match v with
  | VArr elems => forallb wellFormed elems
  | VObj props =>
      (fix go (ps : list (string * value)) : bool :=
         match ps with
         | [] => true
         | (k, a) :: rest =>
             negb (existsb (String.eqb k) (map fst rest)) && wellFormed a && go rest
         end) props
  | _ => true
  end.

(** No number inside [v] is [NaN]: each is equal to itself. *)
Fixpoint nanFree (v : value) : bool :=
  match v with
  | VNum x => PrimFloat.eqb x x
  | VArr elems => forallb nanFree elems
  | VObj props => forallb (fun kv => nanFree (snd kv)) props
  | _ => true
  end.

(** [v] is not [null] and holds no [null] at any depth. *)
Fixpoint nullFree (v : value) : bool :=
  match v with
  | VNull => false
  | VArr elems => forallb nullFree elems
  | VObj props => forallb (fun kv => nullFree (snd kv)) props
  | _ => true
  end.

(** No record inside [v], at any depth, has a property named
    [hasOwnProperty]. *)
Fixpoint plain (v : value) : bool :=
  match v with
  | VArr elems => forallb plain elems
  | VObj props =>
      negb (shadowed (VObj props)) && forallb (fun kv => plain (snd kv)) props
  | _ => true
  end.

End Shape.

(** ** Small helpers of the module *)

Module Util.
Import Kong.

(** [a === s] against a string. *)
Definition strictEqStr (a : value) (s : string) : bool :=
  match a with
  | VStr x => String.eqb x s
  | _ => false
  end.

(** [getIndexBy(anArray, predicate)] on an array: the loop from index [i]
    over the elements left. The predicate is any function: it returns a
    value, looked at for its truthiness, or throws. *)
Fixpoint getIndexByFrom (predicate : value -> completion value) (i : nat)
  (rest : list value) : completion Z :=
  match rest with
  | [] => Normal (-1)%Z
  | e :: rest' =>
      r <- predicate e ;;
      if truthy r then Normal (Z.of_nat i)
      else getIndexByFrom predicate (S i) rest'
  end.

Definition getIndexBy (anArray : list value) (predicate : value -> completion value)
  : completion Z :=
  getIndexByFrom predicate 0 anArray.

(** [findWithName(someArray, name)] on an array. *)
Fixpoint findWithName (someArray : list value) (name : string) : completion value :=
  match someArray with
  | [] => Normal VNull
  | e :: rest =>
      n <- getProp e "name" ;;
      if strictEqStr n name then Normal e else findWithName rest name
  end.

(** [makeUserName(appId, apiId)] on two strings. *)
Definition makeUserName (appId apiId : string) : string :=
  (appId ++ "$") ++ apiId.

(** The predicate says no to [e]: it returns, and returns a falsy value. *)
Definition declines (predicate : value -> completion value) (e : value) : Prop :=
  exists r, predicate e = Normal r /\ truthy r = false.

(** The predicate says yes to [e]. *)
Definition accepts (predicate : value -> completion value) (e : value) : Prop :=
  exists r, predicate e = Normal r /\ truthy r = true.

(** The name of [e] can be read and is not [name]. *)
Definition otherName (name : string) (e : value) : Prop :=
  exists n, getProp e "name" = Normal n /\ strictEqStr n name = false.

(** A string holds the character [c]. *)
Fixpoint hasChar (c : ascii) (s : string) : bool :=
  match s with
  | EmptyString => false
  | String c' rest => Ascii.eqb c c' || hasChar c rest
  end.

End Util.

(** ** The caches of plans and groups *)

Module Portal.
Import Kong Util.

(** The portal API behind [wicked.getPlans] and [wicked.getGroups]: what
    the call number [n] of each calls back with. *)
Class Wicked : Type := {
  wickedGetPlans : nat -> CbArgs;
  wickedGetGroups : nat -> CbArgs
}.

Record Cache : Type := mkCache {
  plans : value;                 (* _plans *)
  groups : value;                (* _groups *)
  planCalls : nat;               (* calls of wicked.getPlans so far *)
  groupCalls : nat;              (* calls of wicked.getGroups so far *)
  received : list CbArgs;        (* what the recording callback received *)
  escaped : list JsError         (* exceptions that no caller caught *)
}.

(** The state of the module when it is loaded. *)
Definition emptyCache : Cache := mkCache VNull VNull 0 0 [] [].

Definition Step : Type := Cache -> Cache.
Definition Reply : Type := CbArgs -> Step.

Definition raise (e : JsError) : Step :=
  fun c => mkCache (plans c) (groups c) (planCalls c) (groupCalls c) (received c)
                   (escaped c ++ [e]).

Definition keep : Reply :=
  fun args c => mkCache (plans c) (groups c) (planCalls c) (groupCalls c)
                        (received c ++ [args]) (escaped c).

(** The [id] of [e] can be read and is not [planId]. *)
Definition otherId (planId : string) (e : value) : Prop :=
  exists id, getProp e "id" = Normal id /\ strictEqStr id planId = false.

Section Caches.
Context {wicked : Wicked}.

Definition getPlans (callback : Reply) : Step :=
  fun c =>
    if negb (truthy (plans c)) then
      let c1 := mkCache (plans c) (groups c) (S (planCalls c)) (groupCalls c)
                        (received c) (escaped c) in
      match wickedGetPlans (planCalls c) with
      | CbErr err => callback (CbErr err) c1
      | CbOk results =>
          callback (CbOk results)
            (mkCache results (groups c1) (planCalls c1) (groupCalls c1)
                     (received c1) (escaped c1))
      end
    else callback (CbOk (plans c)) c.

(** [list.find(p => p.id === planId)]: the first element with that [id],
    [undefined] when there is none. *)
Fixpoint findById (list : list value) (planId : string) : completion value :=
  match list with
  | [] => Normal VUndefined
  | p :: rest =>
      id <- getProp p "id" ;;
      if strictEqStr id planId then Normal p else findById rest planId
  end.

(** [plans.plans.find(...)]: only an array has [find]. *)
Definition findPlan (plans : value) (planId : string) : completion value :=
  list <- getProp plans "plans" ;;
  match list with
  | VArr elems => findById elems planId
  | VUndefined => Throw (typeError (nullish_message "undefined" "find"))
  | VNull => Throw (typeError (nullish_message "null" "find"))
  | _ => Throw (typeError "plans.plans.find is not a function")
  end.

Definition internalGetPlan (plans : value) (planId : string) (callback : Reply) : Step :=
  match findPlan plans planId with
  | Throw e => raise e
  | Normal plan =>
      if negb (truthy plan) then callback (CbErr (newError ("Unknown plan ID: " ++ planId)))
      else callback (CbOk plan)
  end.

Definition getPlan (planId : string) (callback : Reply) : Step :=
  getPlans (fun args =>
    match args with
    | CbErr err => callback (CbErr err)
    | CbOk plans => internalGetPlan plans planId callback
    end).

Definition getGroups (c : Cache) : completion value :=
  if negb (truthy (groups c)) then
    Throw (newError "utils: _groups is not initialized; before calling getGroups(), initGroups() must have been called.")
  else Normal (groups c).

Definition initGroups (callback : Reply) : Step :=
  fun c =>
    let c1 := mkCache (plans c) (groups c) (planCalls c) (S (groupCalls c))
                      (received c) (escaped c) in
    match wickedGetGroups (groupCalls c) with
    | CbErr err => callback (CbErr err) c1
    | CbOk groups' =>
        callback (CbOk groups')
          (mkCache (plans c1) groups' (planCalls c1) (groupCalls c1)
                   (received c1) (escaped c1))
    end.

End Caches.
End Portal.

(** ** Package information *)

Module Package.
Import Kong.

Record Info : Type := mkInfo {
  packageFile : value;           (* _packageFile *)
  packageVersion : value;        (* _packageVersion *)
  expectedKongVersion : value;   (* _expectedKongVersion *)
  reads : nat                    (* reads of package.json so far *)
}.

Definition noInfo : Info := mkInfo VNull VNull VNull 0.

Section Files.
(** [JSON.parse(fs.readFileSync(packageFile, 'utf8'))] at the read number
    [n]: the parsed file, or the exception of a missing or broken file. *)
Variable readPackageJson : nat -> completion value.

Definition getPackageJson (s : Info) : Info * completion value :=
  if negb (truthy (packageFile s)) then
    match readPackageJson (reads s) with
    | Throw e =>
        (mkInfo (packageFile s) (packageVersion s) (expectedKongVersion s) (S (reads s)),
         Throw e)
    | Normal parsed =>
        (mkInfo parsed (packageVersion s) (expectedKongVersion s) (S (reads s)),
         Normal parsed)
    end
  else (s, Normal (packageFile s)).

Definition withVersion (v : value) (s : Info) : Info :=
  mkInfo (packageFile s) v (expectedKongVersion s) (reads s).

Definition withKongVersion (v : value) (s : Info) : Info :=
  mkInfo (packageFile s) (packageVersion s) v (reads s).

(** The last two statements of [getVersion]. *)
Definition versionOrDefault (s : Info) : Info * completion value :=
  if negb (truthy (packageVersion s)) then
    (withVersion (VStr "0.0.0") s, Normal (VStr "0.0.0"))
  else (s, Normal (packageVersion s)).

Definition getVersion (s : Info) : Info * completion value :=
  if negb (truthy (packageVersion s)) then
    match getPackageJson s with
    | (s1, Throw e) => (s1, Throw e)
    | (s1, Normal packageInfo) =>
        match getProp packageInfo "version" with
        | Throw e => (s1, Throw e)
        | Normal version =>
            versionOrDefault (if truthy version then withVersion version s1 else s1)
        end
    end
  else versionOrDefault s.

(** [packageInfo.config && packageInfo.config.kongversion]. *)
Definition configuredKongVersion (packageInfo : value) : completion value :=
  config <- getProp packageInfo "config" ;;
  if truthy config then getProp config "kongversion" else Normal config.

Definition kongVersionOrThrow (s : Info) : Info * completion value :=
  if negb (truthy (expectedKongVersion s)) then
    (s, Throw (newError "package.json does not contain config.kongversion!"))
  else (s, Normal (expectedKongVersion s)).

Definition getExpectedKongVersion (s : Info) : Info * completion value :=
  if negb (truthy (expectedKongVersion s)) then
    match getPackageJson s with
    | (s1, Throw e) => (s1, Throw e)
    | (s1, Normal packageInfo) =>
        match configuredKongVersion packageInfo with
        | Throw e => (s1, Throw e)
        | Normal v =>
            kongVersionOrThrow (if truthy v then withKongVersion v s1 else s1)
        end
    end
  else kongVersionOrThrow s.

End Files.
End Package.

(** ** Listing the composite APIs, and the plugins of an API *)

Module Apis.
Import Kong.

(** Equality of the keys of a [Map] (SameValueZero): primitives by value,
    [NaN] equal to itself. Objects are keys by identity: two objects that
    come out of parsed responses are never the same object, so no two
    structured values of the model are the same key. *)
Definition sameValueZero (a b : value) : bool :=
  match a, b with
  | VUndefined, VUndefined => true
  | VNull, VNull => true
  | VBool x, VBool y => Bool.eqb x y
  | VNum x, VNum y => PrimFloat.eqb x y || (PrimFloat.is_nan x && PrimFloat.is_nan y)
  | VStr x, VStr y => String.eqb x y
  | _, _ => false
  end.

(** A [Map], in insertion order. *)
Definition JsMap : Type := list (value * value).

(** [map.set(k, v)]: an existing key keeps its place and takes the value. *)
Fixpoint mapSet (k v : value) (m : JsMap) : JsMap :=
  match m with
  | [] => [(k, v)]
  | (k', v') :: rest =>
      if sameValueZero k' k then (k', v) :: rest else (k', v') :: mapSet k v rest
  end.

(** [map.get(k)], [None] where [map.has(k)] is false. *)
Fixpoint mapGet (k : value) (m : JsMap) : option value :=
  match m with
  | [] => None
  | (k', v') :: rest => if sameValueZero k' k then Some v' else mapGet k rest
  end.

(** The [id] of [s] is the string [rid]. *)
Definition idIs (rid : string) (s : value) : bool :=
  match getProp s "id" with
  | Normal id => Util.strictEqStr id rid
  | Throw _ => false
  end.

(** The last service of the listing whose [id] is [rid]. *)
Fixpoint lastWithId (services : list value) (rid : string) : option value :=
  match services with
  | [] => None
  | s :: rest =>
      match lastWithId rest rid with
      | Some s' => Some s'
      | None => if idIs rid s then Some s else None
      end
  end.

(** A service with a string for its [id], a route that refers to the
    service id [rid]: what the gateway answers. *)
Definition stringId (s : value) : Prop :=
  exists sid, getProp s "id" = Normal (VStr sid).

Definition refersTo (r : value) (rid : string) : Prop :=
  exists ref, getProp r "service" = Normal ref /\ getProp ref "id" = Normal (VStr rid).

Section Listing.
Context {env : Env}.

(** Step 1 of the callback of [kongGetAllApis]: the map from service id
    to service, over [services.data]. *)
Fixpoint indexServices (serviceIdMap : JsMap) (services : list value)
  : completion JsMap :=
  match services with
  | [] => Normal serviceIdMap
  | s :: rest =>
      id <- getProp s "id" ;;
      indexServices (mapSet id s serviceIdMap) rest
  end.

(** Step 2: one API for each route of [routes.data] whose service is in
    the map; the other routes are skipped with a warning. *)
Fixpoint matchRoutes (serviceIdMap : JsMap) (routes : list value)
  : completion (list value) :=
  match routes with
  | [] => Normal []
  | r :: rest =>
      ref <- getProp r "service" ;;
      id <- getProp ref "id" ;;
      match mapGet id serviceIdMap with
      | None => matchRoutes serviceIdMap rest
      | Some s =>
          api <- kongServiceRouteToApi s r ;;
          apis <- matchRoutes serviceIdMap rest ;;
          Normal (api :: apis)
      end
  end.

(** The APIs built from the two listings. *)
Definition joinApis (services routes : list value) : completion (list value) :=
  serviceIdMap <- indexServices [] services ;;
  matchRoutes serviceIdMap routes.

(** The final callback of [async.parallel] in [kongGetAllApis], on the
    error of a listing or on the [data] of both ([KongCollection]s). *)
Definition kongGetAllApisDone (results : JsError + list value * list value)
  (callback : Callback) : Proc :=
  match results with
  | inl err => callback (CbErr err)
  | inr (services, routes) =>
      match joinApis services routes with
      | Normal kongApis => callback (CbOk (VObj [("data", VArr kongApis)]))
      | Throw e => throw e
      end
  end.

(** *** Plugins of an API *)

Definition kongGetApiPlugins (apiId : string) (callback : Callback) : Proc :=
  kongGet ("services/" ++ apiId ++ "/plugins?size=1000000") callback.

Definition kongPostApiPlugin (apiId : string) (plugin : list (string * value))
  (callback : Callback) : Proc :=
  kongPost ("services/" ++ apiId ++ "/plugins") (VObj plugin) callback.

Definition kongPatchApiPlugin (apiId pluginId : string) (plugin : list (string * value))
  (callback : Callback) : Proc :=
  kongPatch ("plugins/" ++ pluginId)
    (VObj (setProp "id" (VStr pluginId) (setProp "service_id" (VStr apiId) plugin)))
    callback.

Definition kongDeletePlugin (pluginId : string) (callback : Callback) : Proc :=
  kongDelete ("plugins/" ++ pluginId) callback.

Definition kongDeleteApiPlugin (apiId pluginId : string) (callback : Callback) : Proc :=
  kongDeletePlugin pluginId callback.

End Listing.
End Apis.

(** ** Sequences of calls *)

Module Session.
Import Kong.

(** One call of [kongAction] by a caller that records the outcome. *)
Record Call : Type := mkCall {
  callMethod : Method;
  callUrl : string;
  callBody : value;
  callExpected : nat
}.

(** The calls of a list, one after the other: each has called back (or
    thrown) before the next one starts. *)
Definition runCalls {env : Env} (calls : list Call) (w : World) : World :=
  fold_left
    (fun w c => kongAction (callMethod c) (callUrl c) (callBody c) (callExpected c) record w)
    calls w.

Definition actionOf (c : Call) : Action :=
  mkAction (callMethod c) (callUrl c) (callBody c).

Definition isMethod (m : Method) (c : Call) : bool := Method_eqb (callMethod c) m.

Definition countOf (m : Method) (calls : list Call) : nat :=
  List.length (filter (isMethod m) calls).

(** What the calls add to the action log in [w]: those that are not GETs,
    when the log is kept. *)
Definition logged (w : World) (calls : list Call) : list Action :=
  if keepChangingActions w
  then map actionOf (filter (fun c => negb (isMethod GET c)) calls)
  else [].

End Session.

(** ** More scripted gateways *)

Module MoreExamples.
Import Kong Examples.

(** Both the service and the route are created. *)
Definition creating : Env :=
  scripted [] [Response 201 (VObj [("id", VStr "s-1"); ("name", VStr "petstore")]);
               Response 201 (VObj [("id", VStr "r-1"); ("service", VObj [("id", VStr "s-1")])])].

(** The route is found and both updates are answered with a 200. *)
Definition updating : Env :=
  scripted [(oneRouteText, oneRoute)]
           [Response 200 (VStr oneRouteText);
            Response 200 (VObj [("id", VStr "s-1"); ("host", VStr "petstore.local")]);
            Response 200 (VObj [("id", VStr "r-1"); ("paths", VArr [VStr "/petstore"])])].

(** The route is found, its deletion is answered with a 500. *)
Definition stuckRoute : Env :=
  scripted [(oneRouteText, oneRoute)]
           [Response 200 (VStr oneRouteText); Response 500 (VStr "")].

(** A portal that is down at the first call and answers afterwards. *)
Definition planList : value :=
  VObj [("plans", VArr [VObj [("id", VStr "basic")];
                        VObj [("id", VStr "gold"); ("name", VStr "Gold")];
                        VObj [("id", VStr "gold"); ("name", VStr "Gold, again")]])].

Definition groupList : value := VObj [("groups", VArr [VObj [("id", VStr "dev")]])].

Definition flakyPortal : Portal.Wicked := {|
  Portal.wickedGetPlans := fun n =>
    match n with
    | 0 => CbErr (newError "portal not reachable")
    | _ => CbOk planList
    end;
  Portal.wickedGetGroups := fun _ => CbOk groupList
|}.

(** A portal that answers at once. *)
Definition steadyPortal : Portal.Wicked := {|
  Portal.wickedGetPlans := fun _ => CbOk planList;
  Portal.wickedGetGroups := fun _ => CbOk groupList
|}.

(** A package.json without a version. *)
Definition bareFile (n : nat) : completion value :=
  Normal (VObj [("name", VStr "kong-adapter")]).

(** Two services with the same id, one without a route, and three routes,
    one of them left over from a deleted service. *)
Definition listedServices : list value :=
  [VObj [("id", VStr "s-1"); ("host", VStr "old.local")];
   VObj [("id", VStr "s-2"); ("host", VStr "idle.local")];
   VObj [("id", VStr "s-1"); ("host", VStr "petstore.local")]].

Definition listedRoutes : list value :=
  [VObj [("id", VStr "r-1"); ("service", VObj [("id", VStr "s-1")])];
   VObj [("id", VStr "r-9"); ("service", VObj [("id", VStr "s-gone")])]].

End MoreExamples.

(** * Properties *)

(** ** Values *)

Module JsFacts.

Lemma jstype_eqb_eq a b : jstype_eqb a b = true <-> a = b.
Proof. destruct a, b; simpl; split; congruence. Qed.

Lemma jstype_eqb_refl a : jstype_eqb a a = true.
Proof. now apply jstype_eqb_eq. Qed.

Lemma jstype_eqb_neq a b : a <> b -> jstype_eqb a b = false.
Proof.
  intro H. destruct (jstype_eqb a b) eqn:E; [|reflexivity].
  apply jstype_eqb_eq in E. contradiction.
Qed.

Lemma typeof_chars s a : In a (chars s) -> typeof a = TyString.
Proof.
  induction s as [|c s IH]; simpl; [tauto|].
  intros [<-|H]; [reflexivity|auto].
Qed.

Lemma in_indexed prop a elems : In (prop, a) (indexed elems) -> In a elems.
Proof. unfold indexed. apply in_combine_r. Qed.

Lemma natToString_inj a b : natToString a = natToString b -> a = b.
Proof.
  unfold natToString. intro H.
  apply (f_equal NilEmpty.uint_of_string) in H.
  rewrite !NilEmpty.usu in H. injection H as H.
  apply (f_equal Nat.of_uint) in H.
  now rewrite !Unsigned.of_to in H.
Qed.

Lemma find_index_key i n : forall start,
  start <= i < start + n ->
  find (fun j => String.eqb (index_key i) (index_key j)) (seq start n) = Some i.
Proof.
  induction n as [|n IH]; intros start H; [lia|]. simpl.
  destruct (String.eqb (index_key i) (index_key start)) eqn:E.
  - apply String.eqb_eq, natToString_inj in E. now subst.
  - apply IH. assert (i <> start); [|lia].
    intros ->. now rewrite String.eqb_refl in E.
Qed.

Lemma index_of_key i n : i < n -> index_of (index_key i) n = Some i.
Proof. intro H. apply find_index_key. lia. Qed.

Lemma in_indexed_nth prop a elems :
  In (prop, a) (indexed elems) ->
  exists i, i < List.length elems /\ prop = index_key i /\ nth i elems VUndefined = a.
Proof.
  unfold indexed.
  assert (G : forall start,
    In (prop, a) (combine (map index_key (seq start (List.length elems))) elems) ->
    exists j, j < List.length elems /\ prop = index_key (start + j) /\
              nth j elems VUndefined = a).
  { induction elems as [|e elems IH]; intros start Hin; [contradiction|].
    simpl in Hin. destruct Hin as [Heq|Hin].
    - inversion Heq; subst. exists 0. rewrite Nat.add_0_r. simpl.
      repeat split. lia.
    - destruct (IH (S start) Hin) as (j & Hj & Hp & Hn).
      exists (S j). simpl. repeat split; [lia| |exact Hn].
      rewrite Hp. f_equal. lia. }
  intro Hin. destruct (G 0 Hin) as (j & Hj & Hp & Hn). now exists j.
Qed.

Lemma Forall2_at {A B} (R : A -> B -> Prop) l l' d d' :
  Forall2 R l l' -> forall i, i < List.length l -> R (nth i l d) (nth i l' d').
Proof.
  induction 1 as [|x y l l' Hxy Hall IH]; intros i Hi; simpl in *; [lia|].
  destruct i as [|i]; [exact Hxy|]. apply IH. lia.
Qed.

Lemma length_chars s : List.length (chars s) = String.length s.
Proof. induction s as [|c s IH]; simpl; [reflexivity|now rewrite IH]. Qed.

Lemma lookup_In prop props x : lookup prop props = Some x -> In (prop, x) props.
Proof.
  induction props as [|[k b] rest IH]; simpl; [discriminate|].
  destruct (String.eqb prop k) eqn:E.
  - apply String.eqb_eq in E. intros [= ->]. left. now subst.
  - intro H. right. now apply IH.
Qed.

(** The method call answers [true] exactly on a value that does not
    shadow the built-in and owns the property. *)
Lemma hasOwnProperty_true v k :
  hasOwnProperty v k = Normal true <-> shadowed v = false /\ ownsProperty v k = true.
Proof.
  destruct v as [| | b | x | s | elems | props]; simpl;
    try (split; [discriminate|intros [_ H]; discriminate H]);
    try (split; [intros [= ->]; auto|intros [_ ->]; reflexivity]).
  destruct (lookup "hasOwnProperty" props); simpl.
  - split; [discriminate|intros [H _]; discriminate H].
  - split; [intros [= ->]; auto|intros [_ ->]; reflexivity].
Qed.

Lemma hasOwnProperty_false v k :
  hasOwnProperty v k = Normal false ->
  shadowed v = false /\ ownsProperty v k = false.
Proof.
  destruct v as [| | b | x | s | elems | props]; simpl;
    try discriminate; try (intros [= ->]; auto); auto.
  destruct (lookup "hasOwnProperty" props); simpl; [discriminate|].
  intros [= ->]. auto.
Qed.

(** On a record with its own [hasOwnProperty] the call throws, whatever
    the property asked for. *)
Lemma hasOwnProperty_shadowed v k :
  shadowed v = true -> hasOwnProperty v k = Throw notAFunction.
Proof.
  destruct v as [| | b | x | s | elems | props]; simpl; try discriminate.
  now intros ->.
Qed.

End JsFacts.

(** ** The object matcher *)

Module MatcherFacts.
Import Matcher JsFacts Shape.

(** A property whose value is not structured never reaches the recursive
    call. *)
Lemma matchProperty_flat r1 r2 kongObject prop a :
  typeof a <> TyObject ->
  matchProperty r1 kongObject prop a = matchProperty r2 kongObject prop a.
Proof.
  intro Hty. unfold matchProperty.
  destruct (hasOwnProperty kongObject prop) as [[|]|e]; simpl; try reflexivity.
  destruct (getProp kongObject prop) as [k|e]; simpl; try reflexivity.
  destruct (jstype_eqb (typeof a) (typeof k)); simpl; try reflexivity.
  rewrite (jstype_eqb_neq _ _ Hty). reflexivity.
Qed.

(** [matchObjectsInternal] is its loop body run over the enumerable
    properties of [apiObject]. *)
Lemma matchObjectsInternal_forIn apiObject kongObject :
  matchObjectsInternal apiObject kongObject
  = forIn (body kongObject) (enumerable apiObject).
Proof.
  destruct apiObject as [| | | | s | elems | props]; try reflexivity.
  - (* a string: its characters are strings, the recursion is never asked *)
    simpl. generalize (typeof_chars s).
    assert (Hin : forall prop a, In (prop, a) (indexed (chars s)) -> In a (chars s))
      by (intros prop a; apply in_indexed).
    revert Hin. generalize (indexed (chars s)) as ps.
    induction ps as [|[prop a] ps IH]; intros Hin Hty; [reflexivity|].
    simpl. rewrite IH.
    + f_equal. apply matchProperty_flat.
      rewrite (Hty a); [discriminate|]. apply (Hin prop). now left.
    + intros p b H. apply (Hin p). now right.
    + exact Hty.
  - (* an array: the loop counts the index up *)
    simpl. unfold indexed. generalize 0 as i.
    induction elems as [|a elems IH]; intro i; [reflexivity|].
    simpl. rewrite IH. reflexivity.
  - (* a record *)
    simpl. induction props as [|[prop a] props IH]; [reflexivity|].
    rewrite IH. reflexivity.
Qed.

Lemma forIn_all_true body ps :
  (forall prop a, In (prop, a) ps -> body prop a = Normal true) ->
  forIn body ps = Normal true.
Proof.
  induction ps as [|[prop a] ps IH]; simpl; intro H; [reflexivity|].
  rewrite (H prop a) by now left. simpl. apply IH.
  intros; apply H; now right.
Qed.

(** Dropping a property whose check passes does not change the outcome. *)
Lemma forIn_skip body ps1 prop a ps2 :
  body prop a = Normal true ->
  forIn body (ps1 ++ (prop, a) :: ps2) = forIn body (ps1 ++ ps2).
Proof.
  intro H. induction ps1 as [|[p b] ps1 IH]; simpl.
  - rewrite H. reflexivity.
  - rewrite IH. reflexivity.
Qed.

(** The recursion over [null] runs no iteration. *)
Lemma matchObjectsInternal_null kongObject :
  matchObjectsInternal VNull kongObject = Normal true.
Proof. reflexivity. Qed.

Lemma contains_matches desired :
  forall observed, contains desired observed ->
                   matchObjectsInternal desired observed = Normal true.
Proof.
  assert (Hprops : forall ps observed,
    Forall (fun kv => forall o, contains (snd kv) o ->
                                matchObjectsInternal (snd kv) o = Normal true) ps ->
    (forall prop a, In (prop, a) ps ->
       exists k, ownProperty observed prop k /\ typeof a = typeof k /\
         ((typeof a = TyObject /\ contains a k) \/
          (typeof a <> TyObject /\ looseEq a k = true))) ->
    forIn (body observed) ps = Normal true).
  { intros ps observed Hall Hin. apply forIn_all_true. intros prop a Hpa.
    destruct (Hin prop a Hpa) as (k & [Hown Hget] & Hty & Hval).
    rewrite Forall_forall in Hall. specialize (Hall (prop, a) Hpa). simpl in Hall.
    unfold body, matchProperty. rewrite Hown, Hget. simpl.
    rewrite <- Hty, jstype_eqb_refl. simpl.
    destruct Hval as [[Hobj Hrec]|[Hflat Heq]].
    - rewrite Hobj. simpl. now apply Hall.
    - rewrite (jstype_eqb_neq _ _ Hflat), Heq. reflexivity. }
  induction desired as [| | | | s | elems IH | props IH] using value_ind;
    intros observed Hc; try reflexivity;
    rewrite matchObjectsInternal_forIn; inversion Hc as [d o Hin]; subst.
  - apply forIn_all_true. intros prop a Hpa.
    destruct (Hin prop a Hpa) as (k & [Hown Hget] & Hty & Hval).
    assert (Hs : typeof a = TyString)
      by (apply (typeof_chars s), (in_indexed prop); exact Hpa).
    unfold body, matchProperty. rewrite Hown, Hget. simpl.
    rewrite <- Hty, jstype_eqb_refl, Hs. simpl.
    destruct Hval as [[Hobj _]|[_ ->]]; [congruence|reflexivity].
  - apply Hprops; [|exact Hin].
    rewrite Forall_forall in *. intros [prop a] Hpa. simpl.
    apply IH. apply (in_indexed prop). exact Hpa.
  - apply Hprops; assumption.
Qed.

Lemma extends_typeof a k : extends a k -> typeof a = typeof k.
Proof. intro H. inversion H; reflexivity. Qed.

Lemma extends_flat a k :
  extends a k -> typeof a <> TyObject -> looseEq a k = true.
Proof.
  intros H Hty. inversion H; subst; simpl in *; try reflexivity; try congruence.
  - apply Bool.eqb_reflx.
  - apply String.eqb_refl.
Qed.

Lemma plain_shadowed v : plain v = true -> shadowed v = false.
Proof.
  destruct v as [| | b | x | s | elems | props]; try reflexivity.
  intro H. change (negb (shadowed (VObj props))
                   && forallb (fun kv => plain (snd kv)) props = true) in H.
  apply andb_true_iff in H. now apply negb_true_iff.
Qed.

Lemma plain_properties props :
  plain (VObj props) = true -> forall prop a, In (prop, a) props -> plain a = true.
Proof.
  intro H. change (negb (shadowed (VObj props))
                   && forallb (fun kv => plain (snd kv)) props = true) in H.
  apply andb_true_iff in H. destruct H as [_ H]. rewrite forallb_forall in H.
  intros prop a Hin. exact (H (prop, a) Hin).
Qed.

Lemma nth_plain elems i :
  forallb plain elems = true -> plain (nth i elems VUndefined) = true.
Proof.
  intro H. destruct (nth_in_or_default i elems VUndefined) as [Hin| ->]; [|reflexivity].
  rewrite forallb_forall in H. now apply H.
Qed.

(** What is read from a plain value is plain. *)
Lemma getProp_plain v prop k :
  plain v = true -> getProp v prop = Normal k -> plain k = true.
Proof.
  destruct v as [| | b | x | s | elems | props]; intros Hp Hget; simpl in Hget;
    try discriminate; try (injection Hget as <-; reflexivity).
  - injection Hget as <-. unfold get_indexed.
    destruct (index_of prop (List.length (chars s))) as [i|].
    + destruct (nth_in_or_default i (chars s) VUndefined) as [Hin| ->]; [|reflexivity].
      apply typeof_chars in Hin. now destruct (nth i (chars s) VUndefined).
    + now destruct (String.eqb prop "length").
  - injection Hget as <-. unfold get_indexed.
    destruct (index_of prop (List.length elems)) as [i|].
    + now apply nth_plain.
    + now destruct (String.eqb prop "length").
  - injection Hget as <-. destruct (lookup prop props) as [x|] eqn:El; [|reflexivity].
    exact (plain_properties _ Hp prop x (lookup_In _ _ _ El)).
Qed.

(** An extension without a property named [hasOwnProperty] contains what
    it extends. *)
Lemma extends_contains desired :
  forall observed, extends desired observed -> plain observed = true ->
                   contains desired observed.
Proof.
  assert (Hstep : forall a k,
            (extends a k -> plain k = true -> contains a k) ->
            extends a k -> plain k = true ->
            typeof a = typeof k /\
            ((typeof a = TyObject /\ contains a k) \/
             (typeof a <> TyObject /\ looseEq a k = true))).
  { intros a k IH He Hp. split; [now apply extends_typeof|].
    destruct (typeof a) eqn:Ety;
      try (right; split; [discriminate|];
           apply extends_flat; [exact He|rewrite Ety; discriminate]).
    left. split; [reflexivity|auto]. }
  induction desired as [| | | | s | elems IH | props IH] using value_ind;
    intros observed He Hplain; constructor; simpl; intros prop a Hin;
    try contradiction; inversion He; subst.
  - (* a string, against itself *)
    destruct (in_indexed_nth _ _ _ Hin) as (i & Hi & -> & Hnth).
    exists a. rewrite length_chars in Hi. split; [split|].
    + simpl. now rewrite (index_of_key _ _ Hi).
    + simpl. unfold get_indexed.
      rewrite length_chars, (index_of_key _ _ Hi), Hnth. reflexivity.
    + split; [reflexivity|]. right.
      assert (Hs : typeof a = TyString) by (apply (typeof_chars s), (in_indexed _ _ _ Hin)).
      split; [rewrite Hs; discriminate|].
      destruct a; try discriminate. simpl. apply String.eqb_refl.
  - (* an array, against a longer one *)
    destruct (in_indexed_nth _ _ _ Hin) as (i & Hi & -> & Hnth).
    match goal with H : Forall2 extends _ _ |- _ =>
      pose proof (Forall2_length H) as Hlen;
      pose proof (Forall2_at _ _ _ VUndefined VUndefined H i Hi) as Hi'
    end.
    rewrite Hnth in Hi'.
    assert (Hlt : i < List.length (elems' ++ extra))
      by (rewrite length_app; lia).
    exists (nth i elems' VUndefined). split; [split|].
    + simpl. now rewrite (index_of_key _ _ Hlt).
    + simpl. unfold get_indexed. rewrite (index_of_key _ _ Hlt).
      rewrite app_nth1 by lia. reflexivity.
    + apply Hstep; [|exact Hi'|].
      * rewrite Forall_forall in IH. apply IH. rewrite <- Hnth. apply nth_In. exact Hi.
      * simpl in Hplain. rewrite forallb_forall in Hplain. apply Hplain.
        apply in_or_app. left. apply nth_In. lia.
  - (* a record, against one with more properties *)
    match goal with H : forall _ _, In _ props -> _ |- _ =>
      destruct (H prop a Hin) as (k & Hk & Hext) end.
    exists k. split; [split|].
    + apply hasOwnProperty_true. split; [now apply plain_shadowed|].
      simpl. now rewrite Hk.
    + simpl. now rewrite Hk.
    + apply Hstep; [|exact Hext|].
      * rewrite Forall_forall in IH. apply (IH (prop, a) Hin).
      * exact (plain_properties _ Hplain prop k (lookup_In _ _ _ Hk)).
Qed.

End MatcherFacts.

Module MatcherSpec.
Import Matcher JsFacts MatcherFacts Kong Shape Examples.


Example matchObjects_route :
  Matcher.matchObjectsInternal desiredRoute observedRoute = Normal true.
Proof. reflexivity. Qed.

(** The comparison is not symmetric. *)
Example matchObjects_route_converse :
  Matcher.matchObjectsInternal observedRoute desiredRoute = Normal false.
Proof. reflexivity. Qed.

(** [NaN] is not loosely equal to itself: an object with such a property
    does not match itself. *)
Example matchObjects_nan :
  Matcher.matchObjectsInternal (VObj [("ratio", VNum PrimFloat.nan)])
                               (VObj [("ratio", VNum PrimFloat.nan)])
  = Normal false.
Proof. reflexivity. Qed.

(** An array is matched through its indices, against whatever owns them. *)
Example matchObjects_array_record :
  Matcher.matchObjectsInternal (VArr [VStr "a"; VStr "b"])
                               (VObj [("1", VStr "b"); ("0", VStr "a")])
  = Normal true.
Proof. reflexivity. Qed.




(** The same for an observed object that is the desired one plus extra
    properties at any depth, none of them named [hasOwnProperty], no
    number of the desired one being [NaN]. *)
Corollary matchObjects_extended desired observed w :
  extends desired observed -> plain observed = true ->
  matchObjects desired observed w = (w, Normal true).
Proof.
  intros H Hp. unfold matchObjects.
  rewrite (contains_matches _ _ (extends_contains _ _ H Hp)). reflexivity.
Qed.

Lemma matchObjects_extended_witness :
  matchObjects desiredRoute extendedRoute initialWorld = (initialWorld, Normal true).
Proof.
  apply (matchObjects_extended desiredRoute extendedRoute initialWorld);
    [|reflexivity].
  unfold desiredRoute, extendedRoute. constructor. simpl. intros prop a Hin.
  destruct Hin as [Hin|[Hin|[Hin|[Hin|[]]]]]; inversion Hin; subst; clear Hin;
    eexists; (split; [reflexivity|]).
  - apply (extends_arr [VStr "/petstore"] [VStr "/petstore"] [VStr "/store"]).
    repeat constructor.
  - constructor.
  - constructor. reflexivity.
  - constructor. simpl. intros prop a Hin.
    destruct Hin as [Hin|[Hin|[]]]; inversion Hin; subst; clear Hin;
      eexists; (split; [reflexivity|]); constructor.
Defined.

(** A property for which [hasOwnProperty] answers [false] is never a
    match: the comparison returns [false], unless it throws on the way. *)
Lemma missing_property_no_match desired observed prop a :
  In (prop, a) (enumerable desired) ->
  hasOwnProperty observed prop = Normal false ->
  matchObjectsInternal desired observed <> Normal true.
Proof.
  intros Hin Hmiss. rewrite matchObjectsInternal_forIn.
  induction (enumerable desired) as [|[p b] ps IH]; [contradiction|].
  simpl. destruct Hin as [Heq|Hin].
  - inversion Heq; subst. unfold body at 1, matchProperty. rewrite Hmiss.
    simpl. discriminate.
  - destruct (body observed p b) as [[|]|e]; simpl; try discriminate. now apply IH.
Qed.

(** When the desired object has a property for which the observed one
    answers [false] to [hasOwnProperty], and the comparison does not
    throw, [matchObjects] returns [false]; with recording on, the pair is
    appended to the failed comparisons, once. *)
Theorem matchObjects_missing_property desired observed prop a w :
  In (prop, a) (enumerable desired) ->
  hasOwnProperty observed prop = Normal false ->
  (forall e, matchObjectsInternal desired observed <> Throw e) ->
  snd (matchObjects desired observed w) = Normal false /\
  (keepChangingActions w = true ->
   failedComparisons (statistics (fst (matchObjects desired observed w)))
   = (failedComparisons (statistics w) ++ [(desired, observed)])%list) /\
  (keepChangingActions w = false -> fst (matchObjects desired observed w) = w).
Proof.
  intros Hin Hmiss Hthrow.
  pose proof (missing_property_no_match _ _ _ _ Hin Hmiss) as Hno.
  unfold matchObjects.
  destruct (matchObjectsInternal desired observed) as [[|]|e].
  - congruence.
  - destruct (keepChangingActions w); repeat split; intros; congruence.
  - exfalso. now apply (Hthrow e).
Qed.

Lemma matchObjects_missing_property_witness :
  snd (matchObjects observedRoute desiredRoute (resetStatistics true initialWorld))
  = Normal false /\
  failedComparisons
    (statistics (fst (matchObjects observedRoute desiredRoute
                        (resetStatistics true initialWorld))))
  = [(observedRoute, desiredRoute)].
Proof.
  destruct (matchObjects_missing_property observedRoute desiredRoute
              "id" (VStr "r-1") (resetStatistics true initialWorld))
    as (Hfalse & Honce & _).
  - left. reflexivity.
  - reflexivity.
  - intros e. discriminate.
  - split; [exact Hfalse|]. apply Honce. reflexivity.
Defined.

(** C3, at an input where the code leaves the claim: [enabled] is a
    property of the desired object that the observed one lacks, and
    recording is on, yet [matchObjects] does not return [false]: the
    recursion into [config] calls [hasOwnProperty] on [null] and throws,
    and nothing is appended to [failedComparisons]. *)
Theorem matchObjects_missing_after_null :
  In ("enabled", VBool true) (enumerable desiredPlugin) /\
  hasOwnProperty observedPlugin "enabled" = Normal false /\
  keepChangingActions (resetStatistics true initialWorld) = true /\
  matchObjects desiredPlugin observedPlugin (resetStatistics true initialWorld)
  = (resetStatistics true initialWorld,
     Throw (typeError "Cannot read property 'hasOwnProperty' of null")).
Proof.
  split; [right; left; reflexivity|]. repeat split.
Qed.

(** With [null] for a desired property, the check of that property passes
    against any observed value of type [object]: the recursion over
    [null] runs no iteration. Where the observed object has its own
    [hasOwnProperty] the check throws before it compares anything. *)
Lemma matchProperty_null observed prop k :
  ownsProperty observed prop = true -> getProp observed prop = Normal k ->
  typeof k = TyObject ->
  matchProperty (matchObjectsInternal VNull) observed prop VNull
  = if shadowed observed then Throw notAFunction else Normal true.
Proof.
  intros Hown Hget Hty. unfold matchProperty.
  destruct (shadowed observed) eqn:Hs.
  - now rewrite (hasOwnProperty_shadowed _ _ Hs).
  - rewrite (proj2 (hasOwnProperty_true observed prop) (conj Hs Hown)), Hget.
    simpl. rewrite Hty. reflexivity.
Qed.

(** C10. A desired property whose value is [null] is no mismatch against
    an observed property of run-time type [object] ([null] or any object):
    the recursion over [null] passes, and the check of the property
    passes or, on an observed object with a [hasOwnProperty] of its own,
    throws; it never answers [false]. Where it passes, an object with only
    that property matches, and for any desired value (record or array)
    the outcome is the one of the loop over its other properties. *)
Theorem null_property_matches ps1 prop ps2 observed k w :
  ownsProperty observed prop = true -> getProp observed prop = Normal k ->
  typeof k = TyObject ->
  matchObjectsInternal VNull k = Normal true /\
  matchProperty (matchObjectsInternal VNull) observed prop VNull
  = (if shadowed observed then Throw notAFunction else Normal true) /\
  (shadowed observed = false ->
   matchObjects (VObj [(prop, VNull)]) observed w = (w, Normal true) /\
   matchObjectsInternal (VObj (ps1 ++ (prop, VNull) :: ps2)) observed
   = matchObjectsInternal (VObj (ps1 ++ ps2)) observed /\
   forall desired,
     enumerable desired = (ps1 ++ (prop, VNull) :: ps2)%list ->
     matchObjectsInternal desired observed = forIn (body observed) (ps1 ++ ps2)).
Proof.
  intros Hown Hget Hty.
  pose proof (matchProperty_null _ _ _ Hown Hget Hty) as Hp.
  split; [reflexivity|]. split; [exact Hp|].
  intro Hs. rewrite Hs in Hp. split; [|split].
  - unfold matchObjects. rewrite matchObjectsInternal_forIn. simpl.
    unfold body. rewrite Hp. reflexivity.
  - rewrite !matchObjectsInternal_forIn. simpl. now apply forIn_skip.
  - intros desired Hen. rewrite matchObjectsInternal_forIn, Hen.
    now apply forIn_skip.
Qed.

Lemma null_property_matches_witness :
  matchObjectsInternal VNull (VObj [("id", VStr "s-1")]) = Normal true /\
  matchObjects (VObj [("service", VNull)])
               (VObj [("service", VObj [("id", VStr "s-1")])]) initialWorld
  = (initialWorld, Normal true) /\
  matchObjectsInternal
    (VObj ([("name", VStr "r")] ++ ("service", VNull) :: [("hosts", VNull)]))
    (VObj [("service", VObj [("id", VStr "s-1")])])
  = matchObjectsInternal
      (VObj ([("name", VStr "r")] ++ [("hosts", VNull)]))
      (VObj [("service", VObj [("id", VStr "s-1")])]).
Proof.
  destruct (null_property_matches [("name", VStr "r")] "service" [("hosts", VNull)]
              (VObj [("service", VObj [("id", VStr "s-1")])])
              (VObj [("id", VStr "s-1")]) initialWorld
              eq_refl eq_refl eq_refl)
    as (Hnull & _ & Hrest).
  destruct (Hrest eq_refl) as (Hone & Hdrop & _).
  exact (conj Hnull (conj Hone Hdrop)).
Defined.

End MatcherSpec.

(** ** The executor *)

Module KongFacts.
Import Kong.

Lemma Method_eqb_eq a b : Method_eqb a b = true <-> a = b.
Proof. destruct a, b; simpl; split; congruence. Qed.

Lemma after_step av req n w :
  after av req n (withAvailable false (withSent (sent w ++ [req]) w))
  = after av req (S n) w.
Proof.
  unfold after, withAvailable, withSent; simpl.
  rewrite <- app_assoc. reflexivity.
Qed.

Lemma after_last av av' req n w :
  after av req 1 (after av' req n w) = after av req (S n) w.
Proof.
  unfold after, withAvailable, withSent; simpl.
  rewrite <- app_assoc, <- repeat_cons. reflexivity.
Qed.

Lemma bump_same m c :
  bump m c m = Some (S (match c m with Some n => n | None => 0 end)).
Proof. unfold bump. now rewrite (proj2 (Method_eqb_eq m m) eq_refl). Qed.

Lemma kongActionStat_counter method url body w m :
  counter (statistics (kongActionStat method url body w)) m
  = bump method (counter (statistics w)) m.
Proof.
  unfold kongActionStat. simpl.
  destruct (keepChangingActions w && negb (Method_eqb method GET)); reflexivity.
Qed.

Lemma kongActionStat_actions method url body w :
  actions (statistics (kongActionStat method url body w))
  = if keepChangingActions w && negb (Method_eqb method GET)
    then (actions (statistics w) ++ [mkAction method url body])%list
    else actions (statistics w).
Proof.
  unfold kongActionStat. simpl.
  destruct (keepChangingActions w && negb (Method_eqb method GET)); reflexivity.
Qed.

(** Two ends of a call chain that agree for every callback are the same
    end, in the same world. *)
Lemma finish_calls_inj o w' args w1 :
  (forall cb : Callback, finish o cb w' = cb args w1) ->
  o = Calls args /\ w' = w1.
Proof.
  intro H. destruct o as [a|e]; simpl in H.
  - split.
    + pose proof (H (fun x _ => withDelivered [x] initialWorld)) as Ha.
      simpl in Ha. injection Ha as ->. reflexivity.
    + exact (H (fun _ w => w)).
  - pose proof (H (fun _ _ => initialWorld)) as H1.
    pose proof (H (fun _ _ => setKongUrl "x" initialWorld)) as H2.
    simpl in H1, H2. rewrite H1 in H2. discriminate.
Qed.

Section Facts.
Context {env : Env}.

Variables (req : Request) (method : Method) (url : string) (expected : nat).

#[local] Abbreviation onResponse := (Kong.onResponse method url expected).
#[local] Abbreviation failing := (Kong.failing req).

Lemma tryRequest_giveup callback attempt w err :
  transport (sent w) req = TransportError err ->
  attempt > KONG_MAX_ATTEMPTS ->
  tryRequest req method url expected callback attempt w
  = callback (CbErr err) (after true req 1 w).
Proof.
  intros Ht Hgt. rewrite tryRequest_equation_1, Ht. simpl.
  destruct (gt_dec attempt KONG_MAX_ATTEMPTS); [reflexivity|contradiction].
Qed.

Lemma tryRequest_retry callback attempt w err :
  transport (sent w) req = TransportError err ->
  attempt <= KONG_MAX_ATTEMPTS ->
  tryRequest req method url expected callback attempt w
  = tryRequest req method url expected callback (attempt + 1) (after false req 1 w).
Proof.
  intros Ht Hle. rewrite tryRequest_equation_1, Ht. simpl.
  destruct (gt_dec attempt KONG_MAX_ATTEMPTS); [lia|reflexivity].
Qed.

Lemma tryRequest_response callback attempt w statusCode apiBody :
  transport (sent w) req = Response statusCode apiBody ->
  tryRequest req method url expected callback attempt w
  = finish (onResponse statusCode apiBody) callback (after true req 1 w).
Proof.
  intros Ht. rewrite tryRequest_equation_1, Ht. simpl. unfold onResponse.
  destruct (negb (Nat.eqb expected statusCode)); [reflexivity|].
  destruct (getJson apiBody); reflexivity.
Qed.

Lemma failing_shift w k :
  failing w (S k) -> failing (after false req 1 w) k.
Proof.
  intros H i Hi. destruct (H (S i)) as [err Herr]; [lia|].
  exists err. simpl. rewrite <- app_assoc. exact Herr.
Qed.

Lemma failing_first w k :
  failing w (S k) -> exists err, transport (sent w) req = TransportError err.
Proof.
  intro H. destruct (H 0) as [err Herr]; [lia|].
  exists err. simpl in Herr. rewrite app_nil_r in Herr. exact Herr.
Qed.

(** After [k] failed attempts the loop is at attempt [attempt + k], with
    the gate closed and [k] requests sent. *)
Lemma tryRequest_failures callback k :
  forall attempt w,
    attempt + k <= KONG_MAX_ATTEMPTS ->
    failing w (S k) ->
    tryRequest req method url expected callback attempt w
    = tryRequest req method url expected callback (attempt + S k) (after false req (S k) w).
Proof.
  induction k as [|k IH]; intros attempt w Hle Hf.
  - destruct (failing_first _ _ Hf) as [err Herr].
    rewrite (tryRequest_retry _ _ _ err Herr) by lia. reflexivity.
  - destruct (failing_first _ _ Hf) as [err Herr].
    rewrite (tryRequest_retry _ _ _ err Herr) by lia.
    rewrite (IH (attempt + 1) (after false req 1 w)); [|lia|now apply failing_shift].
    unfold after at 2. rewrite after_step.
    replace (attempt + 1 + S k) with (attempt + S (S k)) by lia. reflexivity.
Qed.

(** Twelve failures in a row, attempts 0 to 11: the loop gives up, opens
    the gate and hands the last error to the callback. *)
Lemma tryRequest_exhausted callback w err :
  failing w (S KONG_MAX_ATTEMPTS) ->
  transport (sent w ++ repeat req (S KONG_MAX_ATTEMPTS)) req = TransportError err ->
  tryRequest req method url expected callback 0 w
  = callback (CbErr err) (after true req (S (S KONG_MAX_ATTEMPTS)) w).
Proof.
  intros Hf Hlast.
  rewrite (tryRequest_failures callback KONG_MAX_ATTEMPTS 0 w) by (auto; lia).
  rewrite (tryRequest_giveup _ _ _ err); [|exact Hlast|unfold KONG_MAX_ATTEMPTS; lia].
  rewrite after_last. reflexivity.
Qed.

(** A response at attempt [k], after [k] failures. *)
Lemma tryRequest_answered callback w k statusCode apiBody :
  k <= S KONG_MAX_ATTEMPTS ->
  failing w k ->
  transport (sent w ++ repeat req k) req = Response statusCode apiBody ->
  tryRequest req method url expected callback 0 w
  = finish (onResponse statusCode apiBody) callback (after true req (S k) w).
Proof.
  intros Hk Hf Hr. destruct k as [|k].
  - simpl in Hr. rewrite app_nil_r in Hr.
    now rewrite (tryRequest_response _ _ _ _ _ Hr).
  - rewrite (tryRequest_failures callback k 0 w) by (auto; lia).
    rewrite (tryRequest_response _ _ _ statusCode apiBody) by exact Hr.
    rewrite after_last. reflexivity.
Qed.

(** Every run of the loop ends once: with one call of the callback or
    with one exception, the gate open and at least one request sent. *)
Lemma tryRequest_outcome attempt w :
  exists n o, 1 <= n /\
    forall callback,
      tryRequest req method url expected callback attempt w
      = finish o callback (after true req n w).
Proof.
  remember (attemptsLeft attempt) as left eqn:Hleft.
  assert (Hle : attemptsLeft attempt <= left) by lia. clear Hleft.
  revert attempt w Hle.
  induction left as [|left IH]; intros attempt w Hle;
    (destruct (transport (sent w) req) as [err|statusCode apiBody] eqn:Hr;
     [| exists 1, (onResponse statusCode apiBody); split; [lia|];
        intro callback; apply tryRequest_response; exact Hr ]).
  - exists 1, (Calls (CbErr err)). split; [lia|]. intro callback.
    apply tryRequest_giveup; [exact Hr|].
    unfold attemptsLeft, KONG_MAX_ATTEMPTS in *. lia.
  - destruct (gt_dec attempt KONG_MAX_ATTEMPTS) as [Hgt|Hngt].
    + exists 1, (Calls (CbErr err)). split; [lia|]. intro callback.
      now apply tryRequest_giveup.
    + destruct (IH (attempt + 1) (after false req 1 w)) as (n & o & Hn & Hrun).
      { unfold attemptsLeft, KONG_MAX_ATTEMPTS in *. lia. }
      exists (S n), o. split; [lia|]. intro callback.
      rewrite (tryRequest_retry _ _ _ err Hr) by lia.
      rewrite Hrun. unfold after at 2. rewrite after_step. reflexivity.
Qed.

End Facts.

Section Calls.
Context {env : Env}.

Lemma getKongUrl_some w u : getKongUrl w = Normal u -> kongUrl w = Some u.
Proof.
  unfold getKongUrl. destruct (kongUrl w) as [[|c s]|]; intro H;
    inversion H; reflexivity.
Qed.

Lemma kongAction_open method url body expected callback w u :
  kongAvailable w = true -> getKongUrl w = Normal u ->
  kongAction method url body expected callback w
  = tryRequest (methodBodyOf method u url body) method url expected callback 0
      (kongActionStat method url body w).
Proof.
  intros Hav Hu. unfold kongAction.
  change (kongAvailable (kongActionStat method url body w)) with (kongAvailable w).
  change (getKongUrl (kongActionStat method url body w)) with (getKongUrl w).
  rewrite Hav, Hu. reflexivity.
Qed.

(** Every call of [kongAction] counts itself, sends its request [n]
    times and ends once; a call that sent nothing did not succeed. *)
Lemma kongAction_outcome method url body expected w :
  exists n o av,
    (forall data, o = Calls (CbOk data) -> 1 <= n /\ av = true) /\
    forall callback,
      kongAction method url body expected callback w
      = finish o callback
          (after av (requestOf method url body w) n (kongActionStat method url body w)).
Proof.
  destruct (kongAvailable w) eqn:Hav.
  - destruct (getKongUrl w) as [u|e] eqn:Hu.
    + destruct (tryRequest_outcome (methodBodyOf method u url body) method url expected
                  0 (kongActionStat method url body w)) as (n & o & Hn & Hrun).
      exists n, o, true. split; [intros; split; [exact Hn|reflexivity]|].
      intro callback. rewrite (kongAction_open _ _ _ _ _ _ u Hav Hu), Hrun.
      unfold requestOf. rewrite (getKongUrl_some _ _ Hu). reflexivity.
    + exists 0, (Throws e), true. split; [discriminate|]. intro callback.
      unfold kongAction.
      change (kongAvailable (kongActionStat method url body w)) with (kongAvailable w).
      change (getKongUrl (kongActionStat method url body w)) with (getKongUrl w).
      rewrite Hav, Hu. simpl. f_equal.
      destruct w; unfold after, kongActionStat, withStatistics, withAvailable, withSent;
        simpl in *; subst; rewrite app_nil_r; reflexivity.
  - exists 0, (Calls (CbErr (unavailableError w))), false.
    split; [discriminate|]. intro callback. unfold kongAction.
    change (kongAvailable (kongActionStat method url body w)) with (kongAvailable w).
    rewrite Hav. simpl. f_equal.
    destruct w; unfold after, kongActionStat, withStatistics, withAvailable, withSent;
      simpl in *; subst; rewrite app_nil_r; reflexivity.
Qed.

(** With the recording callback a call changes the statistics only
    through [kongActionStat], and leaves the recording flag alone. *)
Lemma kongAction_statistics method url body expected w :
  statistics (kongAction method url body expected record w)
  = statistics (kongActionStat method url body w) /\
  keepChangingActions (kongAction method url body expected record w)
  = keepChangingActions w.
Proof.
  destruct (kongAction_outcome method url body expected w) as (n & o & av & _ & H).
  rewrite H. destruct o; split; reflexivity.
Qed.

(** The requests a call adds are copies of its one request. *)
Lemma kongAction_sent method url body expected w :
  exists n,
    sent (kongAction method url body expected record w)
    = (sent w ++ repeat (requestOf method url body w) n)%list.
Proof.
  destruct (kongAction_outcome method url body expected w) as (n & o & av & _ & H).
  exists n. rewrite H. destruct o; reflexivity.
Qed.

(** A call that is known to end by calling back with [args] in [w1]. *)
Lemma kongAction_calls method url body expected w args w1 :
  (forall callback, kongAction method url body expected callback w = callback args w1) ->
  exists n av,
    w1 = after av (requestOf method url body w) n (kongActionStat method url body w) /\
    (forall data, args = CbOk data -> 1 <= n /\ av = true).
Proof.
  intro Hrun.
  destruct (kongAction_outcome method url body expected w) as (n & o & av & Hok & H).
  assert (Hfin : forall cb : Callback,
            finish o cb (after av (requestOf method url body w) n
                               (kongActionStat method url body w)) = cb args w1)
    by (intro cb; rewrite <- H; apply Hrun).
  apply finish_calls_inj in Hfin. destruct Hfin as [-> <-].
  exists n, av. split; [reflexivity|].
  intros data ->. now apply (Hok data).
Qed.

End Calls.
End KongFacts.

Module KongSpec.
Import Kong KongFacts Examples.

(** *** The retry ceiling *)

(** Twelve transport failures in a row, attempts 0 to 11, end the call:
    the callback gets the error of the last attempt, once, and the gate
    is open when it does. *)
Lemma kongAction_twelve_failures `{env : Env}
  method url body expected callback w u err :
  kongAvailable w = true -> getKongUrl w = Normal u ->
  let req := methodBodyOf method u url body in
  failing req w 11 ->
  transport (sent w ++ repeat req 11) req = TransportError err ->
  kongAction method url body expected callback w
  = callback (CbErr err) (after true req 12 (kongActionStat method url body w)) /\
  isKongAvailable (after true req 12 (kongActionStat method url body w)) = true.
Proof.
  intros Hav Hu req Hf Hlast. split; [|reflexivity].
  rewrite (kongAction_open _ _ _ _ _ _ u Hav Hu).
  apply (tryRequest_exhausted req method url expected callback _ err).
  - exact Hf.
  - exact Hlast.
Qed.

Lemma kongAction_twelve_failures_witness :
  @kongAction (scripted [] []) GET "status" VNull 200 record ready
  = record (CbErr refused)
      (after true (methodBodyOf GET kongBase "status" VNull) 12
         (kongActionStat GET "status" VNull ready)) /\
  isKongAvailable
    (after true (methodBodyOf GET kongBase "status" VNull) 12
       (kongActionStat GET "status" VNull ready)) = true.
Proof.
  apply (@kongAction_twelve_failures (scripted [] []) GET "status" VNull 200 record
           ready kongBase refused eq_refl eq_refl).
  - intros i Hi. exists refused. simpl. now destruct (List.length _).
  - reflexivity.
Defined.

(** Failures below the ceiling are retried: after [k] failed attempts and
    a response with the expected status code at attempt [k], the callback
    is called once, with the parsed body, [k + 1] requests have been sent
    and the gate is open; before each retry it was closed. *)
Theorem kongAction_retries_then_success `{env : Env}
  method url body expected callback w u k apiBody data :
  kongAvailable w = true -> getKongUrl w = Normal u ->
  let req := methodBodyOf method u url body in
  let w' := kongActionStat method url body w in
  k <= S KONG_MAX_ATTEMPTS -> failing req w k ->
  transport (sent w ++ repeat req k) req = Response expected apiBody ->
  getJson apiBody = Normal data ->
  kongAction method url body expected callback w
  = callback (CbOk data) (after true req (S k) w') /\
  isKongAvailable (after true req (S k) w') = true /\
  forall i, 1 <= i <= k ->
    kongAction method url body expected callback w
    = tryRequest req method url expected callback i (after false req i w') /\
    isKongAvailable (after false req i w') = false.
Proof.
  intros Hav Hu req w' Hk Hf Hr Hjson.
  rewrite (kongAction_open _ _ _ _ _ _ u Hav Hu). fold req w'.
  split; [|split; [reflexivity|]].
  - rewrite (tryRequest_answered req method url expected callback w' k expected apiBody);
      [|exact Hk|exact Hf|exact Hr].
    unfold onResponse. rewrite Nat.eqb_refl, Hjson. reflexivity.
  - intros i Hi. split; [|reflexivity].
    destruct i as [|i]; [lia|].
    rewrite (tryRequest_failures req method url expected callback i 0 w').
    + reflexivity.
    + lia.
    + intros j Hj. apply Hf. lia.
Qed.

Lemma kongAction_retries_then_success_witness :
  @kongAction waking GET "status" VNull 200 record ready
  = record (CbOk (VObj [("database", VStr "ok")]))
      (after true (methodBodyOf GET kongBase "status" VNull) 4
         (kongActionStat GET "status" VNull ready)).
Proof.
  refine (proj1 (@kongAction_retries_then_success waking GET "status" VNull 200 record
                   ready kongBase 3 (VStr "{ database: ok }")
                   (VObj [("database", VStr "ok")]) eq_refl eq_refl _ _ eq_refl eq_refl)).
  - unfold KONG_MAX_ATTEMPTS. lia.
  - intros i Hi. exists refused.
    do 3 (destruct i as [|i]; [reflexivity|]). lia.
Defined.

(** Every call of [kongAction] ends once: by one call of its callback or
    by one exception, whatever the transport does. *)
Theorem kongAction_single_outcome `{env : Env} method url body expected w :
  exists o w', forall callback,
    kongAction method url body expected callback w = finish o callback w'.
Proof.
  destruct (kongAction_outcome method url body expected w) as (n & o & av & _ & H).
  now exists o, (after av (requestOf method url body w) n (kongActionStat method url body w)).
Qed.

(** C2. A request whose transport never yields a response ends by one
    call of the callback, with the transport error, and the gate is
    available when the callback is called. The attempts 0 through 10 fail
    and so does the retry that follows them: the guard of the loop is
    [attempt > KONG_MAX_ATTEMPTS], the call gives up at the failure of
    attempt 11, after twelve requests, and the error is that of this last
    attempt. *)
Theorem kongAction_transport_never_answers `{env : Env}
  method url body expected callback w u :
  kongAvailable w = true -> getKongUrl w = Normal u ->
  let req := methodBodyOf method u url body in
  let w' := after true req 12 (kongActionStat method url body w) in
  (forall history, exists err, transport history req = TransportError err) ->
  exists err,
    failing req w 11 /\
    transport (sent w ++ repeat req 11) req = TransportError err /\
    kongAction method url body expected callback w = callback (CbErr err) w' /\
    isKongAvailable w' = true /\
    delivered (kongAction method url body expected record w)
    = (delivered w ++ [CbErr err])%list /\
    sent (kongAction method url body expected record w)
    = (sent w ++ repeat req 12)%list.
Proof.
  intros Hav Hu req w' Hnever.
  destruct (Hnever (sent w ++ repeat req 11)%list) as [err Hlast].
  assert (Hf : failing req w 11) by (intros i _; apply Hnever).
  assert (Hrun : forall cb, kongAction method url body expected cb w = cb (CbErr err) w').
  { intro cb. rewrite (kongAction_open _ _ _ _ _ _ u Hav Hu).
    apply (tryRequest_exhausted req method url expected cb _ err).
    - exact Hf.
    - exact Hlast. }
  exists err. split; [exact Hf|]. split; [exact Hlast|]. split; [apply Hrun|].
  split; [reflexivity|]. rewrite (Hrun record). split; reflexivity.
Qed.

Lemma kongAction_transport_never_answers_witness :
  exists err,
    delivered (@kongAction (scripted [] []) DELETE "consumers/7" VNull 204 record ready)
    = [CbErr err] /\
    sent (@kongAction (scripted [] []) DELETE "consumers/7" VNull 204 record ready)
    = repeat (methodBodyOf DELETE kongBase "consumers/7" VNull) 12.
Proof.
  destruct (@kongAction_transport_never_answers (scripted [] [])
              DELETE "consumers/7" VNull 204 record ready kongBase eq_refl eq_refl)
    as (err & _ & _ & _ & _ & Hd & Hs).
  - intro history. exists refused. simpl. now destruct (List.length history).
  - exists err. split; [exact Hd|exact Hs].
Defined.

(** Eleven failures in a row are not yet the end of a call: after the
    failure of attempt 10 a twelfth request goes out, which is answered
    here, and the callback is called with the parsed answer and no
    error. *)
Example kongAction_eleven_failures_retry :
  let req := methodBodyOf GET kongBase "status" VNull in
  let w := @kongGet recovering "status" record ready in
  (forall i, i <= 10 ->
     @transport recovering (sent ready ++ repeat req i) req = TransportError refused) /\
  delivered w = [CbOk VNull] /\
  sent w = repeat req 12 /\
  isKongAvailable w = true.
Proof.
  cbv zeta. split; [|repeat split].
  intros i Hi. do 11 (destruct i as [|i]; [reflexivity|]). lia.
Qed.

(** *** Unexpected status codes *)

(** C4, as the code has it. A request that gets a response, at once or
    after some retries, with another status code than expected ends by one
    call of the callback with an error: its [status] is the actual code,
    its message names the actual and the expected code. The error is made
    from the verb, the path and the two codes: the body of the response is
    no part of it. *)
Theorem kongAction_unexpected_status `{env : Env}
  method url body expected callback w u k statusCode apiBody :
  kongAvailable w = true -> getKongUrl w = Normal u ->
  let req := methodBodyOf method u url body in
  k <= S KONG_MAX_ATTEMPTS -> failing req w k ->
  transport (sent w ++ repeat req k) req = Response statusCode apiBody ->
  statusCode <> expected ->
  let err := statusError method url statusCode expected in
  kongAction method url body expected callback w
  = callback (CbErr err) (after true req (S k) (kongActionStat method url body w)) /\
  errStatus err = Some statusCode /\
  errMessage err
  = "kongAction " ++ methodName method ++ " on " ++ url ++
    " did not return the expected status code (got: " ++ natToString statusCode ++
    ", expected: " ++ natToString expected ++ ").".
Proof.
  intros Hav Hu req Hk Hf Hr Hne err. split; [|split; reflexivity].
  rewrite (kongAction_open _ _ _ _ _ _ u Hav Hu).
  rewrite (tryRequest_answered req method url expected callback _ k statusCode apiBody);
    [|exact Hk|exact Hf|exact Hr].
  unfold onResponse.
  destruct (Nat.eqb expected statusCode) eqn:E; [|reflexivity].
  apply Nat.eqb_eq in E. congruence.
Qed.

Lemma kongAction_unexpected_status_witness :
  @kongAction notFound GET "consumers/alice" VNull 200 record ready
  = record
      (CbErr (mkError "Error"
                "kongAction GET on consumers/alice did not return the expected status code (got: 404, expected: 200)."
                (Some 404)))
      (after true (methodBodyOf GET kongBase "consumers/alice" VNull) 2
         (kongActionStat GET "consumers/alice" VNull ready)).
Proof.
  refine (proj1 (@kongAction_unexpected_status notFound GET "consumers/alice" VNull 200
                   record ready kongBase 1 404 (VStr "Not found") _ _ _ _ _ _)).
  - reflexivity.
  - reflexivity.
  - unfold KONG_MAX_ATTEMPTS. lia.
  - intros i Hi. exists refused. destruct i as [|i]; [reflexivity|lia].
  - reflexivity.
  - discriminate.
Defined.

(** C4 as stated fails: two responses with the same unexpected status
    code and different bodies end in the same call of the callback, with
    the same error, which therefore does not carry the body. *)
Lemma unexpected_status_error_without_body :
  VStr "Not found" <> VStr "name: required field" /\
  @kongPost (scripted [] [Response 404 (VStr "Not found")])
     "consumers" VNull record ready
  = @kongPost (scripted [] [Response 404 (VStr "name: required field")])
      "consumers" VNull record ready /\
  delivered (@kongPost (scripted [] [Response 404 (VStr "Not found")])
               "consumers" VNull record ready)
  = [CbErr (mkError "Error"
              "kongAction POST on consumers did not return the expected status code (got: 404, expected: 201)."
              (Some 404))].
Proof. split; [discriminate|]. split; reflexivity. Qed.

(** *** The closed gate *)

(** C9. While the gate is closed a call is still counted under its verb
    and, when logging is on and the verb is not GET, logged as an action;
    it then fails at once with the error of the unavailable end point, by
    one call of the callback, and no request has been sent. *)
Theorem kongAction_gate_closed `{env : Env} method url body expected callback w :
  kongAvailable w = false ->
  let w' := kongActionStat method url body w in
  kongAction method url body expected callback w
  = callback (CbErr (unavailableError w)) w' /\
  sent w' = sent w /\
  counter (statistics w') method
  = Some (S (match counter (statistics w) method with Some n => n | None => 0 end)) /\
  (method <> GET -> keepChangingActions w = true ->
   actions (statistics w')
   = (actions (statistics w) ++ [mkAction method url body])%list) /\
  errStatus (unavailableError w) = Some 500 /\
  errMessage (unavailableError w)
  = "kong admin end point not available: " ++ messageText (kongMessage w).
Proof.
  intros Hav w'. repeat split.
  - unfold kongAction. fold w'.
    change (kongAvailable w') with (kongAvailable w). rewrite Hav. reflexivity.
  - subst w'. rewrite kongActionStat_counter. apply bump_same.
  - intros Hm Hk. subst w'. rewrite kongActionStat_actions, Hk.
    destruct method; try reflexivity. congruence.
Qed.

Lemma kongAction_gate_closed_witness :
  @kongAction (scripted [] []) DELETE "consumers/alice" VNull 204 record closed
  = record (CbErr (mkError "Error"
                     "kong admin end point not available: connection refused"
                     (Some 500)))
           (kongActionStat DELETE "consumers/alice" VNull closed) /\
  sent (kongActionStat DELETE "consumers/alice" VNull closed) = [] /\
  counter (statistics (kongActionStat DELETE "consumers/alice" VNull closed)) DELETE
  = Some 1 /\
  actions (statistics (kongActionStat DELETE "consumers/alice" VNull closed))
  = [mkAction DELETE "consumers/alice" VNull].
Proof.
  destruct (@kongAction_gate_closed (scripted [] []) DELETE "consumers/alice" VNull 204
              record closed eq_refl) as (Hrun & Hsent & Hcount & Hlog & _).
  split; [exact Hrun|]. split; [exact Hsent|]. split; [exact Hcount|].
  apply Hlog; [discriminate|reflexivity].
Defined.

(** *** Statistics *)

Lemma kongGet_statistics `{env : Env} url w :
  let w' := kongGet url record w in
  keepChangingActions w' = keepChangingActions w /\
  actions (statistics w') = actions (statistics w) /\
  counter (statistics w') POST = counter (statistics w) POST /\
  counter (statistics w') GET
  = Some (S (match counter (statistics w) GET with Some n => n | None => 0 end)).
Proof.
  intro w'. subst w'. unfold kongGet.
  destruct (kongAction_statistics GET url VNull 200 w) as [-> ->].
  rewrite kongActionStat_actions, !kongActionStat_counter.
  rewrite andb_false_r. repeat split.
Qed.

Lemma kongGets_statistics `{env : Env} urls :
  forall w g,
    counter (statistics w) GET = Some g ->
    let w' := fold_left (fun w u => kongGet u record w) urls w in
    keepChangingActions w' = keepChangingActions w /\
    actions (statistics w') = actions (statistics w) /\
    counter (statistics w') POST = counter (statistics w) POST /\
    counter (statistics w') GET = Some (g + List.length urls).
Proof.
  induction urls as [|u urls IH]; intros w g Hg; simpl.
  - rewrite Nat.add_0_r. auto.
  - destruct (kongGet_statistics u w) as (Hk & Ha & Hp & Hc).
    rewrite Hg in Hc.
    destruct (IH (kongGet u record w) (S g) Hc) as (Hk' & Ha' & Hp' & Hc').
    rewrite Hk', Ha', Hp', Hc', Hk, Ha, Hp. repeat split. f_equal. lia.
Qed.

(** C8. After [resetStatistics(true)], one POST and then one GET or
    more, the statistics read by [getStatistics] count one POST and at
    least one GET (as many as were made), and the action log holds the
    POST and nothing else; the same [getStatistics] switches the logging
    off, so that no later call adds to the log. *)
Theorem statistics_after_reset `{env : Env} w0 url body listUrl moreUrls :
  let w1 := resetStatistics true w0 in
  let w2 := kongPost url body record w1 in
  let w3 := fold_left (fun w u => kongGet u record w) (listUrl :: moreUrls) w2 in
  let stats := snd (getStatistics w3) in
  let w4 := fst (getStatistics w3) in
  counter stats POST = Some 1 /\
  counter stats GET = Some (S (List.length moreUrls)) /\
  1 <= S (List.length moreUrls) /\
  actions stats = [mkAction POST url body] /\
  keepChangingActions w4 = false /\
  forall method url' body' expected,
    actions (statistics (kongAction method url' body' expected record w4))
    = actions stats.
Proof.
  intros w1 w2 w3 stats w4.
  destruct (kongAction_statistics POST url body 201 w1) as [Hs2 Hk2].
  fold (kongPost url body record w1) in Hs2, Hk2. fold w2 in Hs2, Hk2.
  assert (Ha2 : actions (statistics w2) = [mkAction POST url body])
    by (rewrite Hs2; reflexivity).
  assert (Hp2 : counter (statistics w2) POST = Some 1)
    by (rewrite Hs2; reflexivity).
  assert (Hg2 : counter (statistics w2) GET = None)
    by (rewrite Hs2; reflexivity).
  destruct (kongGet_statistics listUrl w2) as (Hk & Ha & Hp & Hc).
  rewrite Hg2 in Hc.
  destruct (kongGets_statistics moreUrls (kongGet listUrl record w2) 1 Hc)
    as (Hk' & Ha' & Hp' & Hc').
  change (fold_left (fun w u => kongGet u record w) moreUrls (kongGet listUrl record w2))
    with w3 in Hk', Ha', Hp', Hc'.
  change stats with (statistics w3).
  split; [rewrite Hp', Hp; exact Hp2|].
  split; [rewrite Hc'; reflexivity|].
  split; [lia|].
  split; [rewrite Ha', Ha; exact Ha2|].
  split; [reflexivity|].
  intros method url' body' expected.
  destruct (kongAction_statistics method url' body' expected w4) as [-> _].
  rewrite kongActionStat_actions. reflexivity.
Qed.

(** *** Creating a composite API *)

Lemma lookup_setProp k v props : lookup k (setProp k v props) = Some v.
Proof.
  induction props as [|[k' v'] props IH]; simpl.
  - now rewrite String.eqb_refl.
  - destruct (String.eqb k k') eqn:E; simpl.
    + now rewrite String.eqb_refl.
    + now rewrite E.
Qed.

(** C5. In [kongPostApi] the route is posted after the service has been
    created, with [service] set to the [id] that creation returned: the
    requests of the whole call are the POSTs of the service followed by
    the POSTs of the route. When the service is created and the route is
    not, the error of the route goes to the caller by one call of the
    callback, and no DELETE has taken the service back. *)
Theorem kongPostApi_service_then_route `{env : Env}
  apiConfig service route w s w1 id routeResult w2 :
  kongApiToServiceRoute apiConfig = (service, route) ->
  (forall cb, kongPostService service cb w = cb (CbOk s) w1) ->
  getProp s "id" = Normal id ->
  let route' := setProp "service" (VObj [("id", id)]) route in
  (forall cb, kongPostRoute route' cb w1 = cb routeResult w2) ->
  (forall err, routeResult = CbErr err ->
     forall callback, kongPostApi apiConfig callback w = callback (CbErr err) w2) /\
  lookup "service" route' = Some (VObj [("id", id)]) /\
  exists n1 n2,
    1 <= n1 /\
    sent w2 = (sent w ++ repeat (requestOf POST "services" (VObj service) w) n1 ++
                         repeat (requestOf POST "routes" (VObj route') w) n2)%list /\
    reqMethod (requestOf POST "services" (VObj service) w) = POST /\
    reqMethod (requestOf POST "routes" (VObj route') w) = POST /\
    reqBody (requestOf POST "routes" (VObj route') w) = Some (VObj route').
Proof.
  intros Hcfg Hs Hid route' Hr. split; [|split].
  - intros err -> callback. unfold kongPostApi. rewrite Hcfg, Hs, Hid.
    fold route'. rewrite Hr. reflexivity.
  - apply lookup_setProp.
  - destruct (kongAction_calls POST "services" (VObj service) 201 w (CbOk s) w1 Hs)
      as (n1 & av1 & Hw1 & Hok).
    destruct (kongAction_calls POST "routes" (VObj route') 201 w1 routeResult w2 Hr)
      as (n2 & av2 & Hw2 & _).
    destruct (Hok s eq_refl) as [Hn1 _].
    exists n1, n2. split; [exact Hn1|]. split; [|repeat split].
    rewrite Hw2, Hw1. unfold after, requestOf; simpl. now rewrite <- app_assoc.
Qed.

(** A service that is not created ends the call: no route is posted. *)
Lemma kongPostApi_service_failure `{env : Env} apiConfig w err w1 :
  (forall cb, kongPostService (fst (kongApiToServiceRoute apiConfig)) cb w
              = cb (CbErr err) w1) ->
  forall callback, kongPostApi apiConfig callback w = callback (CbErr err) w1.
Proof.
  intros Hs callback. unfold kongPostApi.
  destruct (kongApiToServiceRoute apiConfig) as [service route]. simpl in Hs.
  rewrite Hs. reflexivity.
Qed.

Lemma kongPostApi_service_then_route_witness :
  delivered (@kongPostApi routeConflict petstore record ready)
  = [CbErr (mkError "Error"
              "kongAction POST on routes did not return the expected status code (got: 409, expected: 201)."
              (Some 409))] /\
  map reqMethod (sent (@kongPostApi routeConflict petstore record ready)) = [POST; POST] /\
  map reqBody (sent (@kongPostApi routeConflict petstore record ready))
  = [Some (VObj [("name", VStr "petstore"); ("host", VStr "petstore.local")]);
     Some (VObj [("paths", VArr [VStr "/petstore"]);
                 ("service", VObj [("id", VStr "s-1")])])].
Proof.
  pose (w1 := after true (methodBodyOf POST kongBase "services"
                 (VObj [("name", VStr "petstore"); ("host", VStr "petstore.local")])) 1
               (kongActionStat POST "services"
                 (VObj [("name", VStr "petstore"); ("host", VStr "petstore.local")]) ready)).
  pose (route' := [("paths", VArr [VStr "/petstore"]);
                   ("service", VObj [("id", VStr "s-1")])]).
  pose (w2 := after true (methodBodyOf POST kongBase "routes" (VObj route')) 1
               (kongActionStat POST "routes" (VObj route') w1)).
  destruct (@kongPostApi_service_then_route routeConflict petstore
              [("name", VStr "petstore"); ("host", VStr "petstore.local")]
              [("paths", VArr [VStr "/petstore"])]
              ready (VObj [("id", VStr "s-1"); ("name", VStr "petstore")]) w1
              (VStr "s-1")
              (CbErr (statusError POST "routes" 409 201)) w2
              eq_refl (fun cb => eq_refl) eq_refl (fun cb => eq_refl))
    as (Hrun & _ & _).
  rewrite (Hrun _ eq_refl record). repeat split.
Defined.

(** *** Deleting a composite API *)

(** The route goes first: once it is deleted, what is left of the call is
    the deletion of the service. *)
Lemma kongDeleteApi_route_first `{env : Env} apiId w route w1 routeId data w2 :
  (forall cb, kongGetRouteForService apiId cb w = cb (CbOk route) w1) ->
  getProp route "id" = Normal routeId ->
  (forall cb, kongDeleteRoute routeId cb w1 = cb (CbOk data) w2) ->
  forall callback, kongDeleteApi apiId callback w = kongDeleteService apiId callback w2.
Proof.
  intros Hlook Hid Hdel callback. unfold kongDeleteApi.
  rewrite Hlook, Hid, Hdel. reflexivity.
Qed.

Lemma kongDeleteApi_route_first_witness :
  delivered (@kongDeleteApi deleting "s-1" record ready) = [CbOk VNull] /\
  map (fun r => (reqMethod r, reqUrl r)) (sent (@kongDeleteApi deleting "s-1" record ready))
  = [(GET, "http://kong:8001/services/s-1/routes");
     (DELETE, "http://kong:8001/routes/r-1");
     (DELETE, "http://kong:8001/services/s-1")].
Proof.
  pose (w1 := after true (methodBodyOf GET kongBase "services/s-1/routes" VNull) 1
                (kongActionStat GET "services/s-1/routes" VNull ready)).
  pose (w2 := after true (methodBodyOf DELETE kongBase "routes/r-1" VNull) 1
                (kongActionStat DELETE "routes/r-1" VNull w1)).
  rewrite (@kongDeleteApi_route_first deleting "s-1" ready
             (VObj [("id", VStr "r-1"); ("service", VObj [("id", VStr "s-1")])])
             w1 (VStr "r-1") VNull w2
             (fun cb => eq_refl) eq_refl (fun cb => eq_refl) record).
  split; reflexivity.
Defined.

(** When the listing of routes is empty the lookup calls back with
    [null], and [route.id] throws: the callback of [kongDeleteApi] is
    never called. *)
Lemma kongDeleteApi_no_route `{env : Env} apiId w w1 :
  (forall cb, kongGetRouteForService apiId cb w = cb (CbOk VNull) w1) ->
  forall callback,
    kongDeleteApi apiId callback w
    = throw (typeError "Cannot read property 'id' of null") w1.
Proof.
  intros Hlook callback. unfold kongDeleteApi. rewrite Hlook. reflexivity.
Qed.

(** C6, at an input where the code leaves the claim: no route is found
    for the service, and no error reaches the callback of
    [kongDeleteApi]: it is never called, [route.id] on [null] throws a
    [TypeError] that nobody catches, after the one GET of the lookup. *)
Theorem kongDeleteApi_without_route :
  let w := @kongDeleteApi orphaned "s-1" record ready in
  delivered w = [] /\
  uncaught w = [typeError "Cannot read property 'id' of null"] /\
  map reqMethod (sent w) = [GET] /\
  map reqUrl (sent w) = ["http://kong:8001/services/s-1/routes"].
Proof. repeat split. Qed.

(** *** Updating a composite API *)

(** An error of the route lookup ends [kongPatchApi] by [return err]:
    nothing is called. *)
Lemma kongPatchApi_lookup_error `{env : Env} apiId apiConfig w err w1 :
  (forall cb, kongGet ("services/" ++ apiId ++ "/routes") cb w = cb (CbErr err) w1) ->
  forall callback, kongPatchApi apiId apiConfig callback w = w1.
Proof.
  intros Hlook callback. unfold kongPatchApi, kongGetRouteForService.
  destruct (kongApiToServiceRoute apiConfig) as [service route].
  rewrite Hlook. reflexivity.
Qed.

(** The final callback of the series passes no error on: it calls back
    with a translated API, or the translator throws. *)
Lemma patchDone_no_error `{env : Env} persistedService persistedRoute callback w :
  (exists api, patchDone persistedService persistedRoute callback w
               = callback (CbOk api) w) \/
  (exists e, patchDone persistedService persistedRoute callback w = throw e w).
Proof.
  unfold patchDone.
  destruct (kongServiceRouteToApi persistedService persistedRoute) as [api|e];
    [left; exists api|right; exists e]; reflexivity.
Qed.

(** An error of the PATCH of the service is not passed on either: the
    series ends in its final callback, with nothing to translate. *)
Lemma kongPatchApi_service_error `{env : Env}
  apiId apiConfig service route w existingRoute w1 routeId ref refId err w2 :
  kongApiToServiceRoute apiConfig = (service, route) ->
  (forall cb, kongGetRouteForService apiId cb w = cb (CbOk existingRoute) w1) ->
  truthy existingRoute = true ->
  getProp existingRoute "id" = Normal routeId ->
  getProp existingRoute "service" = Normal ref ->
  getProp ref "id" = Normal refId ->
  (forall cb, kongPatchService apiId (setProp "id" (VStr apiId) service) cb w1
              = cb (CbErr err) w2) ->
  forall callback,
    kongPatchApi apiId apiConfig callback w
    = patchDone VUndefined VUndefined callback w2.
Proof.
  intros Hcfg Hlook Htruthy Hid Href HrefId Hpatch callback.
  unfold kongPatchApi. rewrite Hcfg, Hlook, Htruthy, Hid, Href. simpl.
  rewrite HrefId. simpl. rewrite Hpatch. reflexivity.
Qed.

(** C7, at inputs where the code leaves the claim. When the route lookup
    fails, the callback of [kongPatchApi] is never called. When the PATCH
    of the service fails, the final callback of the series does not look
    at the error: it goes on to translate results that are [undefined],
    and here the translator throws; the PATCH of the route is not sent.
    Either way the error of the sub-call does not reach the caller. *)
Theorem kongPatchApi_errors_dropped :
  let w := @kongPatchApi lookupFails "s-1" petstore record ready in
  let w' := @kongPatchApi patchRefused "s-1" petstore record ready in
  (delivered w = [] /\ uncaught w = [] /\ map reqMethod (sent w) = [GET]) /\
  (delivered w' = [] /\
   uncaught w' = [typeError "Cannot read property 'protocol' of undefined"] /\
   map reqMethod (sent w') = [GET; PATCH]).
Proof. repeat split. Qed.

End KongSpec.

(** ** More on the object matcher *)

Module MatcherMore.
Import Matcher JsFacts MatcherFacts Kong Shape Examples.

(** A comparison that returns [true] has found every property. *)
Lemma forIn_true_inv body ps :
  forIn body ps = Normal true ->
  forall prop a, In (prop, a) ps -> body prop a = Normal true.
Proof.
  induction ps as [|[p b] ps IH]; simpl; intros H prop a Hin; [contradiction|].
  destruct (body p b) as [[|]|e] eqn:Hb; simpl in H; try discriminate.
  destruct Hin as [Heq|Hin]; [inversion Heq; subst; exact Hb|now apply IH].
Qed.

Lemma matchProperty_true_inv recurse observed prop a :
  matchProperty recurse observed prop a = Normal true ->
  exists k, ownProperty observed prop k /\ typeof a = typeof k /\
    ((typeof a = TyObject /\ recurse k = Normal true) \/
     (typeof a <> TyObject /\ looseEq a k = true)).
Proof.
  unfold matchProperty, ownProperty. intro H.
  destruct (hasOwnProperty observed prop) as [[|]|e]; simpl in H; try discriminate.
  destruct (getProp observed prop) as [k|e]; simpl in H; try discriminate.
  exists k. split; [split; reflexivity|].
  destruct (jstype_eqb (typeof a) (typeof k)) eqn:Ety; simpl in H; try discriminate.
  apply jstype_eqb_eq in Ety. split; [exact Ety|].
  destruct (jstype_eqb (typeof a) TyObject) eqn:Eobj.
  - apply jstype_eqb_eq in Eobj. left. split; assumption.
  - right. split.
    + intro Hc. rewrite Hc in Eobj. discriminate.
    + destruct (looseEq a k); [reflexivity|discriminate].
Qed.

Lemma matches_contains desired :
  forall observed, matchObjectsInternal desired observed = Normal true ->
                   contains desired observed.
Proof.
  assert (Hprops : forall ps observed,
    (forall prop a, In (prop, a) ps -> typeof a = TyObject ->
       forall o, matchObjectsInternal a o = Normal true -> contains a o) ->
    forIn (body observed) ps = Normal true ->
    forall prop a, In (prop, a) ps ->
      exists k, ownProperty observed prop k /\ typeof a = typeof k /\
        ((typeof a = TyObject /\ contains a k) \/
         (typeof a <> TyObject /\ looseEq a k = true))).
  { intros ps observed Hall Hrun prop a Hin.
    pose proof (forIn_true_inv _ _ Hrun prop a Hin) as Hb.
    destruct (matchProperty_true_inv _ _ _ _ Hb) as (k & Hown & Hty & Hval).
    exists k. split; [exact Hown|]. split; [exact Hty|].
    destruct Hval as [[Hobj Hrec]|Hflat]; [left|right; exact Hflat].
    split; [exact Hobj|]. exact (Hall prop a Hin Hobj k Hrec). }
  induction desired as [| | | | s | elems IH | props IH] using value_ind;
    intros observed Hrun; constructor; simpl; intros prop a Hin;
    try contradiction; rewrite matchObjectsInternal_forIn in Hrun; simpl in Hrun.
  - apply (Hprops (indexed (chars s)) observed); [|exact Hrun|exact Hin].
    intros p b Hpb Hobj.
    rewrite (typeof_chars s b) in Hobj; [discriminate|].
    apply (in_indexed p). exact Hpb.
  - apply (Hprops (indexed elems) observed); [|exact Hrun|exact Hin].
    rewrite Forall_forall in IH. intros p b Hpb _.
    apply IH. apply (in_indexed p). exact Hpb.
  - apply (Hprops props observed); [|exact Hrun|exact Hin].
    rewrite Forall_forall in IH. intros p b Hpb _. exact (IH (p, b) Hpb).
Qed.

(** [matchObjects] returns [true] exactly when the observed value
    contains the desired one, answering [true] to [hasOwnProperty] for
    every property compared; it then leaves the state as it is. *)
Theorem matchObjects_true_iff_contains desired observed w :
  matchObjects desired observed w = (w, Normal true) <-> contains desired observed.
Proof.
  split.
  - intro H. apply matches_contains. unfold matchObjects in H.
    destruct (matchObjectsInternal desired observed) as [[|]|e]; try reflexivity;
      try (destruct (keepChangingActions w)); inversion H.
  - intro H. unfold matchObjects. rewrite (contains_matches _ _ H). reflexivity.
Qed.

(** A desired record with fewer properties still matches. *)
Theorem matchObjects_fewer_properties props props' observed w :
  incl props' props ->
  matchObjects (VObj props) observed w = (w, Normal true) ->
  matchObjects (VObj props') observed w = (w, Normal true).
Proof.
  intros Hincl H.
  assert (Hc : contains (VObj props) observed).
  { apply matches_contains. unfold matchObjects in H.
    destruct (matchObjectsInternal (VObj props) observed) as [[|]|e]; try reflexivity;
      try (destruct (keepChangingActions w)); inversion H. }
  unfold matchObjects. rewrite (contains_matches (VObj props') observed); [reflexivity|].
  inversion Hc as [d o Hin]; subst. constructor. simpl. intros prop a Hpa.
  apply Hin. simpl. now apply Hincl.
Qed.

Lemma matchObjects_fewer_properties_witness :
  matchObjects (VObj [("strip_path", VBool true); ("paths", VArr [VStr "/petstore"])])
               observedRoute initialWorld
  = (initialWorld, Normal true).
Proof.
  apply (matchObjects_fewer_properties
           (enumerable desiredRoute)
           [("strip_path", VBool true); ("paths", VArr [VStr "/petstore"])]
           observedRoute initialWorld).
  - intros kv [<-|[<-|[]]]; simpl; tauto.
  - reflexivity.
Defined.

(** *** A value against itself *)

Lemma lookup_wellFormed props :
  wellFormed (VObj props) = true ->
  forall prop a, In (prop, a) props ->
    lookup prop props = Some a /\ wellFormed a = true.
Proof.
  induction props as [|[k b] rest IH]; intros Hwf prop a Hin; [contradiction|].
  change (negb (existsb (String.eqb k) (map fst rest)) && wellFormed b
          && wellFormed (VObj rest) = true) in Hwf.
  apply andb_true_iff in Hwf. destruct Hwf as [Hwf Hrest].
  apply andb_true_iff in Hwf. destruct Hwf as [Hfresh Hb].
  destruct Hin as [Heq|Hin].
  - inversion Heq; subst. simpl. rewrite String.eqb_refl. auto.
  - destruct (IH Hrest prop a Hin) as [Hl Ha]. split; [|exact Ha].
    simpl. destruct (String.eqb prop k) eqn:E; [|exact Hl].
    apply String.eqb_eq in E. subst k. exfalso.
    apply negb_true_iff in Hfresh.
    assert (Hex : existsb (String.eqb prop) (map fst rest) = true).
    { apply existsb_exists. exists prop. split; [|apply String.eqb_refl].
      change prop with (fst (prop, a)). now apply in_map. }
    congruence.
Qed.

Lemma looseEq_self a :
  typeof a <> TyObject -> (looseEq a a = true <-> nanFree a = true).
Proof.
  destruct a; simpl; intro H; try tauto; try congruence.
  - rewrite Bool.eqb_reflx. tauto.
  - rewrite String.eqb_refl. tauto.
Qed.

Lemma ownProperty_index elems i :
  i < List.length elems ->
  ownProperty (VArr elems) (index_key i) (nth i elems VUndefined).
Proof.
  intro Hi. split; simpl.
  - now rewrite (index_of_key _ _ Hi).
  - unfold get_indexed. now rewrite (index_of_key _ _ Hi).
Qed.

Lemma indexed_nth elems i :
  i < List.length elems ->
  In (index_key i, nth i elems VUndefined) (indexed elems).
Proof.
  unfold indexed.
  assert (G : forall start j, j < List.length elems ->
            In (index_key (start + j), nth j elems VUndefined)
               (combine (map index_key (seq start (List.length elems))) elems)).
  { induction elems as [|e elems IH]; intros start j Hj; simpl in *; [lia|].
    destruct j as [|j].
    - left. now rewrite Nat.add_0_r.
    - right. replace (start + S j) with (S start + j) by lia. apply IH. lia. }
  intro Hi. exact (G 0 i Hi).
Qed.

Lemma ownProperty_unique observed prop k k' :
  ownProperty observed prop k -> ownProperty observed prop k' -> k = k'.
Proof. intros [_ H] [_ H']. congruence. Qed.

Lemma plain_flat a : typeof a <> TyObject -> plain a = true.
Proof. destruct a; simpl; intro H; try reflexivity; congruence. Qed.

Lemma contains_self v :
  wellFormed v = true -> typeof v = TyObject ->
  (contains v v <-> nanFree v = true /\ plain v = true).
Proof.
  assert (Hchild : forall a : value,
            (wellFormed a = true -> typeof a = TyObject ->
             (contains a a <-> nanFree a = true /\ plain a = true)) ->
            wellFormed a = true ->
            (typeof a = TyObject /\ contains a a \/
             typeof a <> TyObject /\ looseEq a a = true)
            <-> nanFree a = true /\ plain a = true).
  { intros a IH Hwf. split.
    - intros [[Hobj Hc]|[Hflat Heq]]; [now apply IH|].
      split; [now apply looseEq_self|now apply plain_flat].
    - intros [Hn Hp]. destruct (typeof a) eqn:Ety;
        try (right; split; [discriminate|];
             apply looseEq_self; [rewrite Ety; discriminate|exact Hn]).
      left. split; [reflexivity|]. apply IH; auto. }
  induction v as [| | | | s | elems IH | props IH] using value_ind;
    intros Hwf Hty; try discriminate.
  - split; [intros _; split; reflexivity|]. intros _. constructor. simpl. contradiction.
  - (* an array *)
    simpl in Hwf. rewrite forallb_forall in Hwf. rewrite Forall_forall in IH.
    simpl. rewrite !forallb_forall. split.
    + intros Hc. inversion Hc as [d o Hin]; subst.
      assert (Hall : forall a, In a elems -> nanFree a = true /\ plain a = true).
      { intros a Ha.
        destruct (In_nth _ _ VUndefined Ha) as (i & Hi & Hnth).
        assert (Hpa : In (index_key i, a) (enumerable (VArr elems)))
          by (rewrite <- Hnth; now apply indexed_nth).
        destruct (Hin _ _ Hpa) as (k & Hown & _ & Hval).
        pose proof (ownProperty_index elems i Hi) as Hown'. rewrite Hnth in Hown'.
        rewrite <- (ownProperty_unique _ _ _ _ Hown' Hown) in Hval.
        apply (Hchild a); auto. }
      split; intros a Ha; now apply Hall.
    + intros [Hn Hp]. constructor. intros prop a Hpa.
      destruct (in_indexed_nth _ _ _ Hpa) as (i & Hi & -> & Hnth).
      assert (Ha : In a elems) by (rewrite <- Hnth; now apply nth_In).
      exists a. split; [rewrite <- Hnth; now apply ownProperty_index|].
      split; [reflexivity|]. apply (Hchild a); auto.
  - (* a record *)
    rewrite Forall_forall in IH.
    change (plain (VObj props))
      with (negb (shadowed (VObj props)) && forallb (fun kv => plain (snd kv)) props).
    split.
    + intros Hc. inversion Hc as [d o Hin]; subst.
      assert (Hall : forall prop a, In (prop, a) props ->
                                    nanFree a = true /\ plain a = true).
      { intros prop a Hpa.
        destruct (lookup_wellFormed _ Hwf prop a Hpa) as [Hl Hwa].
        destruct (Hin _ _ Hpa) as (k & [_ Hget] & _ & Hval).
        simpl in Hget. rewrite Hl in Hget. injection Hget as <-.
        apply (Hchild a); auto. exact (IH (prop, a) Hpa). }
      split; [|apply andb_true_iff; split].
      * simpl. rewrite forallb_forall. intros [prop a] Hpa. exact (proj1 (Hall _ _ Hpa)).
      * apply negb_true_iff. destruct props as [|[p b] rest]; [reflexivity|].
        destruct (Hin p b (or_introl eq_refl)) as (k & [Hown _] & _).
        apply hasOwnProperty_true in Hown. exact (proj1 Hown).
      * rewrite forallb_forall. intros [prop a] Hpa. exact (proj2 (Hall _ _ Hpa)).
    + intros [Hn Hp]. simpl in Hn. rewrite forallb_forall in Hn.
      apply andb_true_iff in Hp. destruct Hp as [Hs Hp].
      apply negb_true_iff in Hs. rewrite forallb_forall in Hp.
      constructor. intros prop a Hpa.
      destruct (lookup_wellFormed _ Hwf prop a Hpa) as [Hl Hwa].
      exists a. split; [split|].
      * apply hasOwnProperty_true. split; [exact Hs|]. simpl. now rewrite Hl.
      * simpl. now rewrite Hl.
      * split; [reflexivity|]. apply (Hchild a); auto.
        -- exact (IH (prop, a) Hpa).
        -- split; [exact (Hn (prop, a) Hpa)|exact (Hp (prop, a) Hpa)].
Qed.

(** An object or array with distinct property names matches itself
    exactly when none of the numbers in it is [NaN] and none of its
    properties, at any depth, is named [hasOwnProperty]. *)
Theorem matchObjects_self v w :
  wellFormed v = true -> typeof v = TyObject ->
  (matchObjects v v w = (w, Normal true) <-> nanFree v = true /\ plain v = true).
Proof.
  intros Hwf Hty. rewrite <- (contains_self v Hwf Hty). split.
  - intro H. apply matches_contains. unfold matchObjects in H.
    destruct (matchObjectsInternal v v) as [[|]|e]; try reflexivity;
      try (destruct (keepChangingActions w)); inversion H.
  - intro H. unfold matchObjects. rewrite (contains_matches _ _ H). reflexivity.
Qed.

Lemma matchObjects_self_witness :
  (matchObjects observedRoute observedRoute initialWorld = (initialWorld, Normal true)
   <-> nanFree observedRoute = true /\ plain observedRoute = true) /\
  matchObjects observedRoute observedRoute initialWorld = (initialWorld, Normal true).
Proof.
  pose proof (matchObjects_self observedRoute initialWorld eq_refl eq_refl) as H.
  split; [exact H|]. apply H. split; reflexivity.
Defined.

(** *** When the comparison cannot throw *)

Lemma nth_nullFree elems i :
  forallb nullFree elems = true -> nullFree (nth i elems VUndefined) = true.
Proof.
  intro H. destruct (nth_in_or_default i elems VUndefined) as [Hin| ->]; [|reflexivity].
  rewrite forallb_forall in H. now apply H.
Qed.

Lemma getProp_nullFree v prop k :
  nullFree v = true -> getProp v prop = Normal k -> nullFree k = true.
Proof.
  destruct v as [| | b | x | s | elems | props]; simpl; intros Hn Hget;
    try discriminate; try (injection Hget as <-; reflexivity).
  - injection Hget as <-. unfold get_indexed.
    destruct (index_of prop (List.length (chars s))) as [i|].
    + destruct (nth_in_or_default i (chars s) VUndefined) as [Hin| ->]; [|reflexivity].
      apply typeof_chars in Hin. now destruct (nth i (chars s) VUndefined).
    + now destruct (String.eqb prop "length").
  - injection Hget as <-. unfold get_indexed.
    destruct (index_of prop (List.length elems)) as [i|].
    + now apply nth_nullFree.
    + now destruct (String.eqb prop "length").
  - injection Hget as <-. destruct (lookup prop props) as [x|] eqn:El; [|reflexivity].
    rewrite forallb_forall in Hn. exact (Hn (prop, x) (lookup_In _ _ _ El)).
Qed.

Lemma forIn_normal body ps :
  (forall prop a, In (prop, a) ps -> exists b, body prop a = Normal b) ->
  exists b, forIn body ps = Normal b.
Proof.
  induction ps as [|[p a] ps IH]; simpl; intro H; [now exists true|].
  destruct (H p a (or_introl eq_refl)) as [b Hb]. rewrite Hb. simpl.
  destruct b; [|now exists false]. apply IH. intros; apply H; now right.
Qed.

Lemma hasOwnProperty_normal v k :
  nullFree v = true -> plain v = true -> v <> VUndefined ->
  hasOwnProperty v k = Normal (ownsProperty v k).
Proof.
  intros Hn Hp Hu. pose proof (plain_shadowed v Hp) as Hs.
  destruct v; try congruence; try discriminate Hn; try reflexivity.
  unfold hasOwnProperty. now rewrite Hs.
Qed.

Lemma matchObjectsInternal_normal desired :
  forall observed,
    nullFree observed = true -> plain observed = true -> observed <> VUndefined ->
    exists b, matchObjectsInternal desired observed = Normal b.
Proof.
  assert (Hprops : forall ps observed,
    (forall prop a, In (prop, a) ps -> typeof a = TyObject ->
       forall o, nullFree o = true -> plain o = true -> o <> VUndefined ->
                 exists b, matchObjectsInternal a o = Normal b) ->
    nullFree observed = true -> plain observed = true -> observed <> VUndefined ->
    exists b, forIn (body observed) ps = Normal b).
  { intros ps observed Hall Hn Hp Hu. apply forIn_normal. intros prop a Hin.
    unfold body, matchProperty.
    rewrite (hasOwnProperty_normal observed prop Hn Hp Hu).
    simpl. destruct (ownsProperty observed prop); simpl; [|now exists false].
    destruct (getProp observed prop) as [k|e] eqn:Hget;
      [|destruct observed; simpl in *; congruence].
    simpl. destruct (jstype_eqb (typeof a) (typeof k)) eqn:Ety; simpl;
      [|now exists false].
    apply jstype_eqb_eq in Ety.
    destruct (jstype_eqb (typeof a) TyObject) eqn:Eobj.
    - apply jstype_eqb_eq in Eobj. apply (Hall prop a Hin Eobj).
      + exact (getProp_nullFree _ _ _ Hn Hget).
      + exact (getProp_plain _ _ _ Hp Hget).
      + intros ->. rewrite Eobj in Ety. discriminate.
    - destruct (looseEq a k); [now exists true|now exists false]. }
  induction desired as [| | | | s | elems IH | props IH] using value_ind;
    intros observed Hn Hp Hu; try (now exists true);
    rewrite matchObjectsInternal_forIn; apply Hprops; try assumption; simpl.
  - intros p b Hpb Hobj.
    rewrite (typeof_chars s b) in Hobj; [discriminate|].
    apply (in_indexed p). exact Hpb.
  - rewrite Forall_forall in IH. intros p b Hpb _.
    apply IH. apply (in_indexed p). exact Hpb.
  - rewrite Forall_forall in IH. intros p b Hpb _. exact (IH (p, b) Hpb).
Qed.

(** Against an observed value that is not [undefined] and holds no
    [null] and no property named [hasOwnProperty], whatever the desired
    value, [matchObjects] does not throw: it returns [true] or [false]. *)
Theorem matchObjects_no_throw desired observed w :
  nullFree observed = true -> plain observed = true -> observed <> VUndefined ->
  exists b, snd (matchObjects desired observed w) = Normal b.
Proof.
  intros Hn Hp Hu.
  destruct (matchObjectsInternal_normal desired observed Hn Hp Hu) as [b Hb].
  exists b. unfold matchObjects. rewrite Hb.
  destruct b; [reflexivity|]. now destruct (keepChangingActions w).
Qed.

Lemma matchObjects_no_throw_witness :
  exists b, snd (matchObjects desiredPlugin
                   (VObj [("config", VObj []); ("enabled", VBool false)]) initialWorld)
            = Normal b.
Proof.
  apply (matchObjects_no_throw desiredPlugin
           (VObj [("config", VObj []); ("enabled", VBool false)]) initialWorld).
  - reflexivity.
  - reflexivity.
  - discriminate.
Defined.

End MatcherMore.

(** ** More on the executor *)

Module KongMore.
Import Kong KongFacts Examples Session.

Section Bounds.
Context {env : Env}.
Variables (req : Request) (method : Method) (url : string) (expected : nat).

(** The loop started at [attempt] sends at most one request more than it
    has retries left. *)
Lemma tryRequest_outcome_bounded attempt w :
  exists n o, 1 <= n <= S (attemptsLeft attempt) /\
    forall callback,
      tryRequest req method url expected callback attempt w
      = finish o callback (after true req n w).
Proof.
  remember (attemptsLeft attempt) as left eqn:Hleft.
  assert (Hle : attemptsLeft attempt <= left) by lia.
  assert (Hge : left <= attemptsLeft attempt) by lia. clear Hleft.
  revert attempt w Hle Hge.
  induction left as [|left IH]; intros attempt w Hle Hge;
    (destruct (transport (sent w) req) as [err|statusCode apiBody] eqn:Hr;
     [| exists 1, (Kong.onResponse method url expected statusCode apiBody);
        split; [lia|]; intro callback; apply tryRequest_response; exact Hr ]).
  - exists 1, (Calls (CbErr err)). split; [lia|]. intro callback.
    apply tryRequest_giveup; [exact Hr|].
    unfold attemptsLeft, KONG_MAX_ATTEMPTS in *. lia.
  - destruct (gt_dec attempt KONG_MAX_ATTEMPTS) as [Hgt|Hngt].
    + exists 1, (Calls (CbErr err)). split; [lia|]. intro callback.
      now apply tryRequest_giveup.
    + destruct (IH (attempt + 1) (after false req 1 w)) as (n & o & Hn & Hrun).
      { unfold attemptsLeft, KONG_MAX_ATTEMPTS in *. lia. }
      { unfold attemptsLeft, KONG_MAX_ATTEMPTS in *. lia. }
      exists (S n), o. split; [lia|]. intro callback.
      rewrite (tryRequest_retry _ _ _ _ _ _ _ err Hr) by lia.
      rewrite Hrun. unfold after at 2. rewrite after_step. reflexivity.
Qed.

End Bounds.

Section Ends.
Context {env : Env}.

(** How a call of [kongAction] ends, in full: counted, with at most
    twelve copies of its request sent, none while the gate is closed, and
    the gate as the call found it. *)
Lemma kongAction_end method url body expected w :
  exists n o,
    n <= S (S KONG_MAX_ATTEMPTS) /\
    (kongAvailable w = false ->
     n = 0 /\ o = Calls (CbErr (unavailableError w))) /\
    forall callback,
      kongAction method url body expected callback w
      = finish o callback
          (after (kongAvailable w) (requestOf method url body w) n
             (kongActionStat method url body w)).
Proof.
  destruct (kongAvailable w) eqn:Hav.
  - destruct (getKongUrl w) as [u|e] eqn:Hu.
    + destruct (tryRequest_outcome_bounded (methodBodyOf method u url body) method url
                  expected 0 (kongActionStat method url body w)) as (n & o & Hn & Hrun).
      exists n, o. split; [unfold attemptsLeft in Hn; lia|].
      split; [discriminate|].
      intro callback. rewrite (kongAction_open _ _ _ _ _ _ u Hav Hu), Hrun.
      unfold requestOf. rewrite (getKongUrl_some _ _ Hu). reflexivity.
    + exists 0, (Throws e). split; [lia|]. split; [discriminate|]. intro callback.
      unfold kongAction.
      change (kongAvailable (kongActionStat method url body w)) with (kongAvailable w).
      change (getKongUrl (kongActionStat method url body w)) with (getKongUrl w).
      rewrite Hav, Hu. simpl. f_equal.
      destruct w; unfold after, kongActionStat, withStatistics, withAvailable, withSent;
        simpl in *; subst; rewrite app_nil_r; reflexivity.
  - exists 0, (Calls (CbErr (unavailableError w))).
    split; [lia|]. split; [auto|]. intro callback. unfold kongAction.
    change (kongAvailable (kongActionStat method url body w)) with (kongAvailable w).
    rewrite Hav. simpl. f_equal.
    destruct w; unfold after, kongActionStat, withStatistics, withAvailable, withSent;
      simpl in *; subst; rewrite app_nil_r; reflexivity.
Qed.

(** A call of [kongAction] sends at most twelve requests, all of them the
    request it built: the verb, the path under the Kong URL, the timeout
    of 5000 ms, and a JSON body for POST and PATCH only. *)
Theorem kongAction_requests method url body expected w :
  let r := requestOf method url body w in
  (exists n, n <= 12 /\
     sent (kongAction method url body expected record w)
     = (sent w ++ repeat r n)%list) /\
  reqMethod r = method /\
  reqTimeout r = 5000 /\
  reqUrl r = (match kongUrl w with Some u => u | None => "" end) ++ url /\
  (method = POST \/ method = PATCH -> reqJson r = true /\ reqBody r = Some body) /\
  (method = GET \/ method = DELETE -> reqJson r = false /\ reqBody r = None).
Proof.
  intro r. split.
  - destruct (kongAction_end method url body expected w) as (n & o & Hn & _ & H).
    exists n. split; [unfold KONG_MAX_ATTEMPTS in Hn; exact Hn|].
    rewrite H. destruct o; reflexivity.
  - subst r. unfold requestOf, methodBodyOf.
    destruct method; simpl;
      repeat match goal with |- _ /\ _ => split end; try reflexivity;
      intros [Hm|Hm]; try discriminate Hm; split; reflexivity.
Qed.

(** With the recording callback, a call leaves the gate as it found it:
    the retry loop always opens it again before it ends, and a call made
    while the gate is closed does not open it. *)
Lemma kongAction_gate method url body expected w :
  kongAvailable (kongAction method url body expected record w) = kongAvailable w.
Proof.
  destruct (kongAction_end method url body expected w) as (n & o & _ & _ & H).
  rewrite H. destruct o; reflexivity.
Qed.

Lemma runCalls_cons c calls w :
  runCalls (c :: calls) w
  = runCalls calls
      (kongAction (callMethod c) (callUrl c) (callBody c) (callExpected c) record w).
Proof. reflexivity. Qed.

(** Whatever the transport does, a sequence of calls ends with the gate as
    it was: no call leaves it closed behind itself, none opens it. *)
Theorem runCalls_gate calls :
  forall w, isKongAvailable (runCalls calls w) = isKongAvailable w.
Proof.
  unfold isKongAvailable.
  induction calls as [|c calls IH]; intro w; [reflexivity|].
  rewrite runCalls_cons, IH. apply kongAction_gate.
Qed.

(** While the gate is closed, every call of a sequence fails with the
    error of the unavailable end point and nothing is sent: only
    [markKongAvailable] opens the gate again. *)
Theorem runCalls_gate_closed calls :
  forall w,
    kongAvailable w = false ->
    sent (runCalls calls w) = sent w /\
    delivered (runCalls calls w)
    = (delivered w ++ map (fun _ => CbErr (unavailableError w)) calls)%list /\
    uncaught (runCalls calls w) = uncaught w /\
    isKongAvailable (runCalls calls w) = false.
Proof.
  induction calls as [|c calls IH]; intros w Hav.
  - simpl. rewrite app_nil_r. auto.
  - rewrite runCalls_cons.
    destruct (kongAction_end (callMethod c) (callUrl c) (callBody c) (callExpected c) w)
      as (n & o & _ & Hclosed & H).
    destruct (Hclosed Hav) as [-> ->].
    set (w1 := kongAction (callMethod c) (callUrl c) (callBody c) (callExpected c) record w).
    assert (Hw1 : w1 = record (CbErr (unavailableError w))
                         (after (kongAvailable w) (requestOf (callMethod c) (callUrl c) (callBody c) w) 0
                            (kongActionStat (callMethod c) (callUrl c) (callBody c) w)))
      by (unfold w1; rewrite H; reflexivity).
    assert (Hav1 : kongAvailable w1 = false) by (rewrite Hw1; simpl; exact Hav).
    destruct (IH w1 Hav1) as (Hs & Hd & Hu & Hg).
    rewrite Hs, Hd, Hu, Hg. rewrite Hw1. simpl.
    rewrite app_nil_r, <- app_assoc. auto.
Qed.

(** *** Statistics of a sequence of calls *)

Lemma bump_else m m' c : m' <> m -> bump m c m' = c m'.
Proof.
  intro H. unfold bump. destruct (Method_eqb m' m) eqn:E; [|reflexivity].
  apply Method_eqb_eq in E. contradiction.
Qed.

Lemma kongActionStat_failed method url body w :
  failedComparisons (statistics (kongActionStat method url body w))
  = failedComparisons (statistics w).
Proof.
  unfold kongActionStat. simpl.
  destruct (keepChangingActions w && negb (Method_eqb method GET)); reflexivity.
Qed.

Lemma runCalls_statistics_from calls :
  forall w,
    (forall m, counter (statistics (runCalls calls w)) m
               = match countOf m calls with
                 | 0 => counter (statistics w) m
                 | S n => Some (S n + match counter (statistics w) m with
                                      | Some k => k | None => 0 end)
                 end) /\
    actions (statistics (runCalls calls w))
    = (actions (statistics w) ++ logged w calls)%list /\
    failedComparisons (statistics (runCalls calls w)) = failedComparisons (statistics w) /\
    keepChangingActions (runCalls calls w) = keepChangingActions w.
Proof.
  induction calls as [|c calls IH]; intro w.
  - unfold logged. simpl.
    destruct (keepChangingActions w); rewrite app_nil_r; auto.
  - rewrite runCalls_cons.
    set (w1 := kongAction (callMethod c) (callUrl c) (callBody c) (callExpected c) record w).
    destruct (kongAction_statistics (callMethod c) (callUrl c) (callBody c)
                (callExpected c) w) as [Hst Hk]. fold w1 in Hst, Hk.
    destruct (IH w1) as (Hc & Ha & Hf & Hkeep).
    split; [|split; [|split]].
    + intro m. rewrite Hc, Hst, kongActionStat_counter.
      unfold countOf. simpl. unfold isMethod at 2.
      destruct (Method_eqb (callMethod c) m) eqn:E.
      * apply Method_eqb_eq in E. subst m. rewrite bump_same. simpl.
        fold (countOf (callMethod c) calls).
        destruct (countOf (callMethod c) calls); f_equal; lia.
      * rewrite bump_else; [reflexivity|].
        intros ->. rewrite (proj2 (Method_eqb_eq _ _) eq_refl) in E. discriminate.
    + rewrite Ha, Hst, kongActionStat_actions. unfold logged. rewrite Hk.
      simpl. unfold isMethod at 2.
      destruct (keepChangingActions w); simpl; [|now rewrite !app_nil_r].
      destruct (Method_eqb (callMethod c) GET); simpl; [reflexivity|].
      now rewrite <- app_assoc.
    + rewrite Hf, Hst. apply kongActionStat_failed.
    + rewrite Hkeep. exact Hk.
Qed.

(** After [resetStatistics(keep)] and any sequence of calls, the counter
    of each verb is the number of calls made with it (and does not exist
    when there was none), whatever became of the calls; the action log
    holds the calls that are not GETs, in order, when [keep] is set, and
    is empty otherwise. *)
Theorem runCalls_statistics keep calls w :
  let w' := runCalls calls (resetStatistics keep w) in
  (forall m, counter (statistics w') m
             = match countOf m calls with 0 => None | S n => Some (S n) end) /\
  actions (statistics w')
  = (if keep then map actionOf (filter (fun c => negb (isMethod GET c)) calls) else []) /\
  failedComparisons (statistics w') = [] /\
  keepChangingActions w' = keep.
Proof.
  intro w'. subst w'.
  destruct (runCalls_statistics_from calls (resetStatistics keep w))
    as (Hc & Ha & Hf & Hk).
  split; [|split; [|split]].
  - intro m. rewrite Hc. simpl. destruct (countOf m calls); [reflexivity|].
    f_equal. lia.
  - rewrite Ha. unfold logged. simpl. now destruct keep.
  - exact Hf.
  - rewrite Hk. now destruct keep.
Qed.

(** *** Before [setKongUrl] *)

(** With the gate open and no Kong URL (never set, or set to the empty
    string), a call is counted and then throws: its callback is never
    called and nothing is sent. *)
Theorem kongAction_without_url method url body expected callback w :
  kongAvailable w = true ->
  kongUrl w = None \/ kongUrl w = Some "" ->
  kongAction method url body expected callback w
  = throw (newError "utils.setKongUrl was never called, kong URL is yet unknown")
      (kongActionStat method url body w) /\
  sent (kongActionStat method url body w) = sent w /\
  counter (statistics (kongActionStat method url body w)) method
  = Some (S (match counter (statistics w) method with Some n => n | None => 0 end)).
Proof.
  intros Hav Hurl. split; [|split].
  - unfold kongAction.
    change (kongAvailable (kongActionStat method url body w)) with (kongAvailable w).
    change (getKongUrl (kongActionStat method url body w)) with (getKongUrl w).
    rewrite Hav. unfold getKongUrl. destruct Hurl as [-> | ->]; reflexivity.
  - reflexivity.
  - rewrite kongActionStat_counter. apply bump_same.
Qed.

End Ends.

Lemma runCalls_gate_closed_witness :
  sent (@runCalls (scripted [] [])
          [mkCall POST "consumers" VNull 201; mkCall GET "status" VNull 200] closed) = [] /\
  delivered (@runCalls (scripted [] [])
               [mkCall POST "consumers" VNull 201; mkCall GET "status" VNull 200] closed)
  = [CbErr (unavailableError closed); CbErr (unavailableError closed)].
Proof.
  destruct (@runCalls_gate_closed (scripted [] [])
              [mkCall POST "consumers" VNull 201; mkCall GET "status" VNull 200]
              closed eq_refl) as (Hs & Hd & _).
  split; [exact Hs|exact Hd].
Defined.

Lemma kongAction_without_url_witness :
  @kongAction (scripted [] []) GET "status" VNull 200 record (setKongUrl "" initialWorld)
  = throw (newError "utils.setKongUrl was never called, kong URL is yet unknown")
      (kongActionStat GET "status" VNull (setKongUrl "" initialWorld)).
Proof.
  apply (@kongAction_without_url (scripted [] []) GET "status" VNull 200 record
           (setKongUrl "" initialWorld) eq_refl (or_intror eq_refl)).
Defined.

End KongMore.

(** ** More on the composite APIs *)

Module ApiMore.
Import Kong KongFacts KongSpec Examples MoreExamples.

Lemma lookup_setProp_other k k' v props :
  k <> k' -> lookup k (setProp k' v props) = lookup k props.
Proof.
  intro Hne. assert (E : String.eqb k k' = false) by now apply String.eqb_neq.
  induction props as [|[k0 v0] props IH]; simpl.
  - now rewrite E.
  - destruct (String.eqb k' k0) eqn:E0; simpl.
    + apply String.eqb_eq in E0. subst k0. now rewrite E.
    + now rewrite IH.
Qed.

Section Composite.
Context {env : Env}.

(** When both the service and the route are created, [kongPostApi] calls
    back once, with the API translated from the service and the route as
    the gateway returned them. *)
Theorem kongPostApi_created apiConfig service route w s w1 id r w2 callback :
  kongApiToServiceRoute apiConfig = (service, route) ->
  (forall cb, kongPostService service cb w = cb (CbOk s) w1) ->
  getProp s "id" = Normal id ->
  (forall cb, kongPostRoute (setProp "service" (VObj [("id", id)]) route) cb w1
              = cb (CbOk r) w2) ->
  kongPostApi apiConfig callback w
  = match kongServiceRouteToApi s r with
    | Normal api => callback (CbOk api) w2
    | Throw e => throw e w2
    end.
Proof.
  intros Hcfg Hs Hid Hr. unfold kongPostApi. rewrite Hcfg, Hs, Hid, Hr.
  now destruct (kongServiceRouteToApi s r).
Qed.

(** When the service has no route, [kongPatchApi] fails with the error
    that the route could not be retrieved, by one call of its callback,
    and has sent nothing but the GETs of the lookup: no PATCH. *)
Theorem kongPatchApi_no_route apiId apiConfig w routes w1 route callback :
  (forall cb, kongGet ("services/" ++ apiId ++ "/routes") cb w = cb (CbOk routes) w1) ->
  firstRoute routes = Normal route -> truthy route = false ->
  kongPatchApi apiId apiConfig callback w
  = callback (CbErr (newError ("Could not retrieve route for service " ++ apiId))) w1 /\
  exists n,
    sent w1 = (sent w ++ repeat (requestOf GET ("services/" ++ apiId ++ "/routes") VNull w) n)%list.
Proof.
  intros Hlook Hfirst Hfalsy. split.
  - unfold kongPatchApi, kongGetRouteForService.
    destruct (kongApiToServiceRoute apiConfig) as [service route0].
    rewrite Hlook, Hfirst, Hfalsy. reflexivity.
  - destruct (kongAction_calls GET _ VNull 200 w (CbOk routes) w1 Hlook)
      as (n & av & -> & _).
    exists n. reflexivity.
Qed.

(** When the route is found and both updates succeed, the service is
    patched under the given id with [id] set to it, the route under the id
    of the route found, keeping the service that route refers to, and the
    callback is called once with the translation of the two results. *)
Theorem kongPatchApi_updated
  apiId apiConfig service route w existingRoute w1 routeId ref refId ps w2 pr w3 callback :
  kongApiToServiceRoute apiConfig = (service, route) ->
  (forall cb, kongGetRouteForService apiId cb w = cb (CbOk existingRoute) w1) ->
  truthy existingRoute = true ->
  getProp existingRoute "id" = Normal routeId ->
  getProp existingRoute "service" = Normal ref ->
  getProp ref "id" = Normal refId ->
  let service' := setProp "id" (VStr apiId) service in
  let route' := setProp "service" (VObj [("id", refId)]) (setProp "id" routeId route) in
  (forall cb, kongPatchService apiId service' cb w1 = cb (CbOk ps) w2) ->
  (forall cb, kongPatchRoute routeId route' cb w2 = cb (CbOk pr) w3) ->
  kongPatchApi apiId apiConfig callback w = patchDone ps pr callback w3 /\
  lookup "id" service' = Some (VStr apiId) /\
  lookup "id" route' = Some routeId /\
  lookup "service" route' = Some (VObj [("id", refId)]).
Proof.
  intros Hcfg Hlook Htruthy Hid Href HrefId service' route' Hps Hpr.
  split; [|split; [|split]].
  - unfold kongPatchApi. rewrite Hcfg, Hlook, Htruthy, Hid, Href. simpl.
    rewrite HrefId. simpl. fold service' route'. rewrite Hps, Hpr. reflexivity.
  - apply lookup_setProp.
  - unfold route'. rewrite lookup_setProp_other by discriminate. apply lookup_setProp.
  - apply lookup_setProp.
Qed.

(** When the route cannot be deleted, [kongDeleteApi] hands the error to
    its callback, once, and the service is left alone: the requests since
    the lookup are the DELETEs of the route. *)
Theorem kongDeleteApi_route_failure apiId w route w1 routeId err w2 callback :
  (forall cb, kongGetRouteForService apiId cb w = cb (CbOk route) w1) ->
  getProp route "id" = Normal routeId ->
  (forall cb, kongDeleteRoute routeId cb w1 = cb (CbErr err) w2) ->
  kongDeleteApi apiId callback w = callback (CbErr err) w2 /\
  exists n,
    sent w2
    = (sent w1 ++ repeat (requestOf DELETE ("routes/" ++ toString routeId) VNull w1) n)%list.
Proof.
  intros Hlook Hid Hdel. split.
  - unfold kongDeleteApi. rewrite Hlook, Hid, Hdel. reflexivity.
  - destruct (kongAction_calls DELETE _ VNull 204 w1 (CbErr err) w2 Hdel)
      as (n & av & -> & _).
    exists n. reflexivity.
Qed.

End Composite.

Lemma kongPostApi_created_witness :
  delivered (@kongPostApi creating petstore record ready)
  = [CbOk (VObj [("service", VObj [("id", VStr "s-1"); ("name", VStr "petstore")]);
                 ("route", VObj [("id", VStr "r-1");
                                 ("service", VObj [("id", VStr "s-1")])])])].
Proof.
  pose (sv := [("name", VStr "petstore"); ("host", VStr "petstore.local")]).
  pose (rt := [("paths", VArr [VStr "/petstore"]); ("service", VObj [("id", VStr "s-1")])]).
  pose (w1 := after true (methodBodyOf POST kongBase "services" (VObj sv)) 1
                (kongActionStat POST "services" (VObj sv) ready)).
  pose (w2 := after true (methodBodyOf POST kongBase "routes" (VObj rt)) 1
                (kongActionStat POST "routes" (VObj rt) w1)).
  rewrite (@kongPostApi_created creating petstore sv [("paths", VArr [VStr "/petstore"])]
             ready (VObj [("id", VStr "s-1"); ("name", VStr "petstore")]) w1 (VStr "s-1")
             (VObj [("id", VStr "r-1"); ("service", VObj [("id", VStr "s-1")])]) w2 record
             eq_refl (fun cb => eq_refl) eq_refl (fun cb => eq_refl)).
  reflexivity.
Defined.

Lemma kongPatchApi_no_route_witness :
  delivered (@kongPatchApi orphaned "s-1" petstore record ready)
  = [CbErr (newError "Could not retrieve route for service s-1")] /\
  map reqMethod (sent (@kongPatchApi orphaned "s-1" petstore record ready)) = [GET].
Proof.
  pose (w1 := after true (methodBodyOf GET kongBase "services/s-1/routes" VNull) 1
                (kongActionStat GET "services/s-1/routes" VNull ready)).
  destruct (@kongPatchApi_no_route orphaned "s-1" petstore ready noRoutes w1 VNull record
              (fun cb => eq_refl) eq_refl eq_refl) as [Hrun _].
  rewrite Hrun. split; reflexivity.
Defined.

Lemma kongPatchApi_updated_witness :
  delivered (@kongPatchApi updating "s-1" petstore record ready)
  = [CbOk (VObj [("service", VObj [("id", VStr "s-1"); ("host", VStr "petstore.local")]);
                 ("route", VObj [("id", VStr "r-1"); ("paths", VArr [VStr "/petstore"])])])] /\
  map (fun r => (reqMethod r, reqUrl r)) (sent (@kongPatchApi updating "s-1" petstore record ready))
  = [(GET, "http://kong:8001/services/s-1/routes");
     (PATCH, "http://kong:8001/services/s-1");
     (PATCH, "http://kong:8001/routes/r-1")].
Proof.
  pose (sv := [("name", VStr "petstore"); ("host", VStr "petstore.local"); ("id", VStr "s-1")]).
  pose (rt := [("paths", VArr [VStr "/petstore"]); ("id", VStr "r-1");
               ("service", VObj [("id", VStr "s-1")])]).
  pose (w1 := after true (methodBodyOf GET kongBase "services/s-1/routes" VNull) 1
                (kongActionStat GET "services/s-1/routes" VNull ready)).
  pose (w2 := after true (methodBodyOf PATCH kongBase "services/s-1" (VObj sv)) 1
                (kongActionStat PATCH "services/s-1" (VObj sv) w1)).
  pose (w3 := after true (methodBodyOf PATCH kongBase "routes/r-1" (VObj rt)) 1
                (kongActionStat PATCH "routes/r-1" (VObj rt) w2)).
  destruct (@kongPatchApi_updated updating "s-1" petstore
              [("name", VStr "petstore"); ("host", VStr "petstore.local")]
              [("paths", VArr [VStr "/petstore"])] ready
              (VObj [("id", VStr "r-1"); ("service", VObj [("id", VStr "s-1")])]) w1
              (VStr "r-1") (VObj [("id", VStr "s-1")]) (VStr "s-1")
              (VObj [("id", VStr "s-1"); ("host", VStr "petstore.local")]) w2
              (VObj [("id", VStr "r-1"); ("paths", VArr [VStr "/petstore"])]) w3 record
              eq_refl (fun cb => eq_refl) eq_refl eq_refl eq_refl eq_refl
              (fun cb => eq_refl) (fun cb => eq_refl)) as [Hrun _].
  rewrite Hrun. split; reflexivity.
Defined.

Lemma kongDeleteApi_route_failure_witness :
  delivered (@kongDeleteApi stuckRoute "s-1" record ready)
  = [CbErr (statusError DELETE "routes/r-1" 500 204)] /\
  map (fun r => (reqMethod r, reqUrl r)) (sent (@kongDeleteApi stuckRoute "s-1" record ready))
  = [(GET, "http://kong:8001/services/s-1/routes");
     (DELETE, "http://kong:8001/routes/r-1")].
Proof.
  pose (w1 := after true (methodBodyOf GET kongBase "services/s-1/routes" VNull) 1
                (kongActionStat GET "services/s-1/routes" VNull ready)).
  pose (w2 := after true (methodBodyOf DELETE kongBase "routes/r-1" VNull) 1
                (kongActionStat DELETE "routes/r-1" VNull w1)).
  destruct (@kongDeleteApi_route_failure stuckRoute "s-1" ready
              (VObj [("id", VStr "r-1"); ("service", VObj [("id", VStr "s-1")])]) w1
              (VStr "r-1") (statusError DELETE "routes/r-1" 500 204) w2 record
              (fun cb => eq_refl) eq_refl (fun cb => eq_refl)) as [Hrun _].
  rewrite Hrun. split; reflexivity.
Defined.

End ApiMore.

(** ** The small helpers *)

Module UtilFacts.
Import Kong Util.

Lemma getIndexByFrom_range predicate rest :
  forall start z,
    getIndexByFrom predicate start rest = Normal z ->
    z = (-1)%Z \/ (Z.of_nat start <= z < Z.of_nat (start + List.length rest))%Z.
Proof.
  induction rest as [|e rest IH]; intros start z H; simpl in H.
  - left. congruence.
  - destruct (predicate e) as [r|err]; simpl in H; [|discriminate].
    destruct (truthy r).
    + right. injection H as <-. simpl. lia.
    + destruct (IH _ _ H) as [->|Hz]; [now left|right]. simpl. lia.
Qed.

Lemma getIndexByFrom_none predicate rest :
  forall start,
    getIndexByFrom predicate start rest = Normal (-1)%Z <->
    Forall (declines predicate) rest.
Proof.
  induction rest as [|e rest IH]; intro start; simpl.
  - split; [constructor|reflexivity].
  - split.
    + intro H. destruct (predicate e) as [r|err] eqn:Hp; simpl in H; [|discriminate].
      destruct (truthy r) eqn:Ht; [injection H; lia|].
      constructor; [now exists r|]. now apply (IH (S start)).
    + intro H. inversion H as [|x l [r [Hp Ht]] Hrest]; subst.
      rewrite Hp. simpl. rewrite Ht. now apply IH.
Qed.

Lemma getIndexByFrom_first predicate rest :
  forall start i,
    getIndexByFrom predicate start rest = Normal (Z.of_nat (start + i)) <->
    i < List.length rest /\
    accepts predicate (nth i rest VUndefined) /\
    forall j, j < i -> declines predicate (nth j rest VUndefined).
Proof.
  induction rest as [|e rest IH]; intros start i; simpl.
  - split; [intro H; injection H; lia|intros [H _]; lia].
  - split.
    + intro H. destruct (predicate e) as [r|err] eqn:Hp; simpl in H; [|discriminate].
      destruct (truthy r) eqn:Ht.
      * injection H as H. assert (i = 0) by lia. subst i.
        split; [lia|]. split; [now exists r|]. intros j Hj. lia.
      * destruct i as [|i].
        { destruct (getIndexByFrom_range _ _ _ _ H) as [Hz|Hz]; lia. }
        replace (start + S i) with (S start + i) in H by lia.
        apply IH in H. destruct H as (Hi & Hacc & Hdec).
        split; [lia|]. split; [exact Hacc|].
        intros [|j] Hj; [now exists r|]. apply Hdec. lia.
    + intros (Hi & Hacc & Hdec). destruct i as [|i].
      * destruct Hacc as (r & Hp & Ht). rewrite Hp. simpl. rewrite Ht.
        now rewrite Nat.add_0_r.
      * destruct (Hdec 0) as (r & Hp & Ht); [lia|]. simpl in Hp.
        rewrite Hp. simpl. rewrite Ht.
        replace (start + S i) with (S start + i) by lia.
        apply IH. split; [lia|]. split; [exact Hacc|].
        intros j Hj. apply (Hdec (S j)). lia.
Qed.

(** [getIndexBy] returns the index of the first element the predicate
    accepts, and -1 exactly when it declines them all; it returns nothing
    else. *)
Theorem getIndexBy_first anArray predicate :
  (forall i,
     getIndexBy anArray predicate = Normal (Z.of_nat i) <->
     i < List.length anArray /\
     accepts predicate (nth i anArray VUndefined) /\
     forall j, j < i -> declines predicate (nth j anArray VUndefined)) /\
  (getIndexBy anArray predicate = Normal (-1)%Z <->
   Forall (declines predicate) anArray) /\
  (forall z, getIndexBy anArray predicate = Normal z ->
             z = (-1)%Z \/ (0 <= z < Z.of_nat (List.length anArray))%Z).
Proof.
  unfold getIndexBy. split; [|split].
  - intro i. exact (getIndexByFrom_first predicate anArray 0 i).
  - apply getIndexByFrom_none.
  - intros z H. destruct (getIndexByFrom_range _ _ _ _ H) as [Hz|Hz]; [now left|right].
    simpl in Hz. lia.
Qed.

Lemma strictEqStr_eq a s : strictEqStr a s = true -> a = VStr s.
Proof.
  destruct a; simpl; try discriminate. intro H. apply String.eqb_eq in H. now subst.
Qed.

(** What [findWithName] returns is [null], when no element has the name,
    or the first element whose [name] is the given string; it is never a
    later one. *)
Theorem findWithName_first someArray name e :
  findWithName someArray name = Normal e ->
  (e = VNull /\ Forall (otherName name) someArray) \/
  (exists before after,
     someArray = (before ++ e :: after)%list /\
     getProp e "name" = Normal (VStr name) /\
     Forall (otherName name) before).
Proof.
  induction someArray as [|x rest IH]; simpl; intro H.
  - left. split; [congruence|constructor].
  - destruct (getProp x "name") as [n|err] eqn:Hn; simpl in H; [|discriminate].
    destruct (strictEqStr n name) eqn:Heq.
    + injection H as <-. right. exists [], rest. split; [reflexivity|].
      split; [|constructor]. now rewrite Hn, (strictEqStr_eq _ _ Heq).
    + destruct (IH H) as [[-> Hall]|(before & after & -> & He & Hall)].
      * left. split; [reflexivity|]. constructor; [now exists n|exact Hall].
      * right. exists (x :: before), after. split; [reflexivity|].
        split; [exact He|]. constructor; [now exists n|exact Hall].
Qed.

Lemma findWithName_first_witness :
  exists before after,
    [VObj [("name", VStr "cors")];
     VObj [("name", VStr "acl"); ("id", VStr "p-2")];
     VObj [("name", VStr "acl"); ("id", VStr "p-3")]]
    = (before ++ VObj [("name", VStr "acl"); ("id", VStr "p-2")] :: after)%list /\
    getProp (VObj [("name", VStr "acl"); ("id", VStr "p-2")]) "name" = Normal (VStr "acl") /\
    Forall (otherName "acl") before.
Proof.
  destruct (findWithName_first
              [VObj [("name", VStr "cors")];
               VObj [("name", VStr "acl"); ("id", VStr "p-2")];
               VObj [("name", VStr "acl"); ("id", VStr "p-3")]] "acl"
              (VObj [("name", VStr "acl"); ("id", VStr "p-2")]) eq_refl)
    as [[H _]|H]; [discriminate H|exact H].
Defined.

Lemma hasChar_cons c c' s :
  hasChar c (String c' s) = (Ascii.eqb c c' || hasChar c s)%bool.
Proof. reflexivity. Qed.

Lemma append_dollar_inj appId :
  forall appId' apiId apiId',
    hasChar "$" appId = false -> hasChar "$" appId' = false ->
    makeUserName appId apiId = makeUserName appId' apiId' ->
    appId = appId' /\ apiId = apiId'.
Proof.
  unfold makeUserName.
  induction appId as [|c appId IH]; intros [|c' appId'] apiId apiId' H H' Heq.
  - simpl in Heq. injection Heq as Heq. auto.
  - simpl in Heq. injection Heq as Hc _. subst c'.
    rewrite hasChar_cons, Ascii.eqb_refl in H'. discriminate.
  - simpl in Heq. injection Heq as Hc _. subst c.
    rewrite hasChar_cons, Ascii.eqb_refl in H. discriminate.
  - simpl in Heq. injection Heq as Hc Heq. subst c'.
    rewrite hasChar_cons in H, H'.
    apply orb_false_iff in H. apply orb_false_iff in H'.
    destruct (IH appId' apiId apiId' (proj2 H) (proj2 H') Heq) as [-> ->]. auto.
Qed.

(** Two pairs of an application id and an API id get the same user name
    only when they are the same pair, as long as the application ids hold
    no dollar sign. *)
Theorem makeUserName_injective appId apiId appId' apiId' :
  hasChar "$" appId = false -> hasChar "$" appId' = false ->
  makeUserName appId apiId = makeUserName appId' apiId' ->
  appId = appId' /\ apiId = apiId'.
Proof. apply append_dollar_inj. Qed.

Lemma makeUserName_injective_witness :
  "my-app" = "my-app" /\ "petstore$v2" = "petstore$v2".
Proof.
  apply (makeUserName_injective "my-app" "petstore$v2" "my-app" "petstore$v2");
    reflexivity.
Defined.

(** With a dollar sign in the application id, two different pairs can
    share a user name. *)
Example makeUserName_collision :
  makeUserName "a$b" "c" = makeUserName "a" "b$c".
Proof. reflexivity. Qed.

End UtilFacts.

(** ** The caches of plans and groups *)

Module PortalFacts.
Import Kong Util Portal MoreExamples.

Section Cached.
Context {wicked : Wicked}.

Lemma getPlans_cached callback c :
  truthy (plans c) = true -> getPlans callback c = callback (CbOk (plans c)) c.
Proof. intro H. unfold getPlans. now rewrite H. Qed.

(** After a first [getPlans] that fetched plans, any number of further
    calls answer from the cache: the portal has been asked once in all,
    and every call got the same plans. *)
Theorem getPlans_fetch_once c results n :
  truthy (plans c) = false ->
  wickedGetPlans (planCalls c) = CbOk results ->
  truthy results = true ->
  let c' := Nat.iter n (getPlans keep) (getPlans keep c) in
  planCalls c' = S (planCalls c) /\
  plans c' = results /\
  received c' = (received c ++ repeat (CbOk results) (S n))%list.
Proof.
  intros Hempty Hreply Htruthy. induction n as [|n IH]; simpl.
  - unfold getPlans. rewrite Hempty, Hreply. simpl. auto.
  - simpl in IH. destruct IH as (Hcalls & Hplans & Hrecv).
    rewrite getPlans_cached by (rewrite Hplans; exact Htruthy).
    simpl. rewrite Hcalls, Hplans, Hrecv. repeat split.
    rewrite <- app_assoc. f_equal. simpl. f_equal.
    now rewrite <- repeat_cons.
Qed.

(** A fetch that fails caches nothing: the error goes to the caller and
    the next [getPlans] asks the portal again. *)
Theorem getPlans_error_not_cached c err :
  truthy (plans c) = false ->
  wickedGetPlans (planCalls c) = CbErr err ->
  received (getPlans keep c) = (received c ++ [CbErr err])%list /\
  plans (getPlans keep c) = plans c /\
  planCalls (getPlans keep (getPlans keep c)) = S (S (planCalls c)).
Proof.
  intros Hempty Hreply.
  assert (H1 : getPlans keep c
               = keep (CbErr err)
                   (mkCache (plans c) (groups c) (S (planCalls c)) (groupCalls c)
                            (received c) (escaped c)))
    by (unfold getPlans; now rewrite Hempty, Hreply).
  rewrite H1. repeat split.
  unfold getPlans at 1. simpl. rewrite Hempty.
  now destruct (wickedGetPlans (S (planCalls c))).
Qed.

Lemma findById_unknown elems planId :
  Forall (otherId planId) elems -> findById elems planId = Normal VUndefined.
Proof.
  induction 1 as [|e elems (id & Hid & Hne) _ IH]; simpl; [reflexivity|].
  rewrite Hid. simpl. now rewrite Hne.
Qed.

Lemma findById_first before p after planId :
  Forall (otherId planId) before ->
  getProp p "id" = Normal (VStr planId) ->
  findById (before ++ p :: after) planId = Normal p.
Proof.
  induction 1 as [|e elems (id & Hid & Hne) _ IH]; simpl; intro Hp.
  - rewrite Hp. simpl. now rewrite String.eqb_refl.
  - rewrite Hid. simpl. rewrite Hne. now apply IH.
Qed.

Lemma index_key_not_id i : String.eqb "id" (index_key i) = false.
Proof.
  apply String.eqb_neq. intro H. unfold index_key, natToString in H.
  apply (f_equal NilEmpty.uint_of_string) in H.
  rewrite NilEmpty.usu in H. discriminate.
Qed.

Lemma get_indexed_id elems : get_indexed elems "id" = VUndefined.
Proof.
  unfold get_indexed, index_of.
  assert (H : forall l, find (fun i => String.eqb "id" (index_key i)) l = None).
  { induction l as [|i l IH]; [reflexivity|].
    cbn [find]. now rewrite index_key_not_id. }
  now rewrite H.
Qed.

(** Only a record has an [id] that is a string. *)
Lemma id_of_record p planId :
  getProp p "id" = Normal (VStr planId) -> truthy p = true.
Proof.
  destruct p; intro H; try reflexivity; try discriminate H.
  unfold getProp in H. rewrite get_indexed_id in H. discriminate.
Qed.

(** With the plans in the cache, [getPlan] calls back with the first plan
    whose [id] is the one asked for, and with the error of an unknown plan
    when no plan has it; the portal is not asked. *)
Theorem getPlan_by_id c elems planId callback :
  truthy (plans c) = true ->
  getProp (plans c) "plans" = Normal (VArr elems) ->
  (Forall (otherId planId) elems ->
   getPlan planId callback c
   = callback (CbErr (newError ("Unknown plan ID: " ++ planId))) c) /\
  (forall before p after,
     elems = (before ++ p :: after)%list ->
     Forall (otherId planId) before ->
     getProp p "id" = Normal (VStr planId) ->
     getPlan planId callback c = callback (CbOk p) c).
Proof.
  intros Hcached Hlist. split.
  - intro Hall. unfold getPlan. rewrite getPlans_cached by exact Hcached.
    unfold internalGetPlan, findPlan. rewrite Hlist. simpl.
    now rewrite (findById_unknown _ _ Hall).
  - intros before p after -> Hall Hp. unfold getPlan.
    rewrite getPlans_cached by exact Hcached.
    unfold internalGetPlan, findPlan. rewrite Hlist. simpl.
    rewrite (findById_first _ _ _ _ Hall Hp).
    now rewrite (id_of_record _ _ Hp).
Qed.

(** [getGroups] throws until [initGroups] has fetched groups, and returns
    what it fetched afterwards; a fetch that fails changes nothing. *)
Theorem getGroups_after_initGroups c :
  (forall g, wickedGetGroups (groupCalls c) = CbOk g -> truthy g = true ->
             getGroups (initGroups keep c) = Normal g) /\
  (forall err, wickedGetGroups (groupCalls c) = CbErr err ->
               getGroups (initGroups keep c) = getGroups c) /\
  (truthy (groups c) = false ->
   getGroups c
   = Throw (newError "utils: _groups is not initialized; before calling getGroups(), initGroups() must have been called.")).
Proof.
  split; [|split].
  - intros g Hreply Htruthy. unfold initGroups. rewrite Hreply.
    unfold getGroups. simpl. now rewrite Htruthy.
  - intros err Hreply. unfold initGroups. rewrite Hreply. reflexivity.
  - intro H. unfold getGroups. now rewrite H.
Qed.

End Cached.

Lemma getPlans_fetch_once_witness :
  planCalls (Nat.iter 2 (@getPlans steadyPortal keep) (@getPlans steadyPortal keep emptyCache))
  = 1 /\
  plans (Nat.iter 2 (@getPlans steadyPortal keep) (@getPlans steadyPortal keep emptyCache))
  = planList /\
  received (Nat.iter 2 (@getPlans steadyPortal keep) (@getPlans steadyPortal keep emptyCache))
  = [CbOk planList; CbOk planList; CbOk planList].
Proof.
  exact (@getPlans_fetch_once steadyPortal emptyCache planList 2 eq_refl eq_refl eq_refl).
Defined.

Lemma getPlans_error_not_cached_witness :
  received (@getPlans flakyPortal keep emptyCache)
  = [CbErr (newError "portal not reachable")] /\
  plans (@getPlans flakyPortal keep emptyCache) = VNull /\
  planCalls (@getPlans flakyPortal keep (@getPlans flakyPortal keep emptyCache)) = 2.
Proof.
  exact (@getPlans_error_not_cached flakyPortal emptyCache
           (newError "portal not reachable") eq_refl eq_refl).
Defined.

Lemma getPlan_by_id_witness :
  received (@getPlan steadyPortal "gold" keep (@getPlans steadyPortal keep emptyCache))
  = [CbOk planList; CbOk (VObj [("id", VStr "gold"); ("name", VStr "Gold")])] /\
  received (@getPlan steadyPortal "platinum" keep (@getPlans steadyPortal keep emptyCache))
  = [CbOk planList; CbErr (newError "Unknown plan ID: platinum")].
Proof.
  split.
  - destruct (@getPlan_by_id steadyPortal (@getPlans steadyPortal keep emptyCache)
                [VObj [("id", VStr "basic")];
                 VObj [("id", VStr "gold"); ("name", VStr "Gold")];
                 VObj [("id", VStr "gold"); ("name", VStr "Gold, again")]]
                "gold" keep eq_refl eq_refl) as [_ Hfound].
    rewrite (Hfound [VObj [("id", VStr "basic")]]
               (VObj [("id", VStr "gold"); ("name", VStr "Gold")])
               [VObj [("id", VStr "gold"); ("name", VStr "Gold, again")]] eq_refl).
    + reflexivity.
    + constructor; [|constructor]. exists (VStr "basic"). split; reflexivity.
    + reflexivity.
  - destruct (@getPlan_by_id steadyPortal (@getPlans steadyPortal keep emptyCache)
                [VObj [("id", VStr "basic")];
                 VObj [("id", VStr "gold"); ("name", VStr "Gold")];
                 VObj [("id", VStr "gold"); ("name", VStr "Gold, again")]]
                "platinum" keep eq_refl eq_refl) as [Hunknown _].
    rewrite Hunknown; [reflexivity|].
    repeat constructor; eexists; split; reflexivity.
Defined.

End PortalFacts.

(** ** Package information *)

Module PackageFacts.
Import Kong Package MoreExamples.

Section Versions.
Variable readPackageJson : nat -> completion value.

Lemma versionOrDefault_result s s' v :
  versionOrDefault s = (s', Normal v) ->
  truthy v = true /\ packageVersion s' = v.
Proof.
  unfold versionOrDefault. destruct (truthy (packageVersion s)) eqn:E; simpl.
  - intros [= <- <-]. auto.
  - intros [= <- <-]. auto.
Qed.

(** What [getVersion] returns is never falsy, and it stays: the next call
    returns the same without reading the file. A package.json without a
    version gives ["0.0.0"]. *)
Theorem getVersion_result s :
  (forall s' v,
     getVersion readPackageJson s = (s', Normal v) ->
     truthy v = true /\ getVersion readPackageJson s' = (s', Normal v)) /\
  (forall s1 packageInfo version,
     truthy (packageVersion s) = false ->
     getPackageJson readPackageJson s = (s1, Normal packageInfo) ->
     getProp packageInfo "version" = Normal version ->
     truthy version = false ->
     snd (getVersion readPackageJson s) = Normal (VStr "0.0.0")).
Proof.
  split.
  - intros s' v H.
    assert (Hres : truthy v = true /\ packageVersion s' = v).
    { unfold getVersion in H. destruct (truthy (packageVersion s)); simpl in H.
      - now apply versionOrDefault_result in H.
      - destruct (getPackageJson readPackageJson s) as [s1 [info|e]]; [|discriminate].
        destruct (getProp info "version") as [version|e]; [|discriminate].
        now apply versionOrDefault_result in H. }
    destruct Hres as [Ht Hv]. split; [exact Ht|].
    unfold getVersion, versionOrDefault. rewrite Hv, Ht. reflexivity.
  - intros s1 info version Hempty Hfile Hversion Hfalsy.
    unfold getVersion. rewrite Hempty, Hfile, Hversion, Hfalsy. simpl.
    unfold versionOrDefault.
    assert (Hs1 : packageVersion s1 = packageVersion s).
    { unfold getPackageJson in Hfile.
      destruct (truthy (packageFile s)); simpl in Hfile.
      - now injection Hfile as <- _.
      - destruct (readPackageJson (reads s)); [|discriminate].
        now injection Hfile as <- _. }
    rewrite Hs1, Hempty. reflexivity.
Qed.

(** [getExpectedKongVersion] returns no falsy value either, and what it
    returned stays; when package.json has no [config.kongversion] it
    throws. *)
Theorem getExpectedKongVersion_result s :
  (forall s' v,
     getExpectedKongVersion readPackageJson s = (s', Normal v) ->
     truthy v = true /\ getExpectedKongVersion readPackageJson s' = (s', Normal v)) /\
  (forall s1 packageInfo v,
     truthy (expectedKongVersion s) = false ->
     getPackageJson readPackageJson s = (s1, Normal packageInfo) ->
     configuredKongVersion packageInfo = Normal v ->
     truthy v = false ->
     snd (getExpectedKongVersion readPackageJson s)
     = Throw (newError "package.json does not contain config.kongversion!")).
Proof.
  assert (Hres : forall s0 s' v, kongVersionOrThrow s0 = (s', Normal v) ->
                                 truthy v = true /\ expectedKongVersion s' = v).
  { intros s0 s' v. unfold kongVersionOrThrow.
    destruct (truthy (expectedKongVersion s0)) eqn:E; simpl; [|discriminate].
    intros [= <- <-]. auto. }
  split.
  - intros s' v H.
    assert (Hv : truthy v = true /\ expectedKongVersion s' = v).
    { unfold getExpectedKongVersion in H.
      destruct (truthy (expectedKongVersion s)); simpl in H.
      - now apply Hres in H.
      - destruct (getPackageJson readPackageJson s) as [s1 [info|e]]; [|discriminate].
        destruct (configuredKongVersion info) as [k|e]; [|discriminate].
        now apply Hres in H. }
    destruct Hv as [Ht Hv]. split; [exact Ht|].
    unfold getExpectedKongVersion, kongVersionOrThrow. rewrite Hv, Ht. reflexivity.
  - intros s1 info v Hempty Hfile Hconf Hfalsy.
    unfold getExpectedKongVersion. rewrite Hempty, Hfile, Hconf, Hfalsy. simpl.
    unfold kongVersionOrThrow.
    assert (Hs1 : expectedKongVersion s1 = expectedKongVersion s).
    { unfold getPackageJson in Hfile.
      destruct (truthy (packageFile s)); simpl in Hfile.
      - now injection Hfile as <- _.
      - destruct (readPackageJson (reads s)); [|discriminate].
        now injection Hfile as <- _. }
    rewrite Hs1, Hempty. reflexivity.
Qed.

End Versions.

Example getVersion_bare :
  snd (getVersion bareFile noInfo) = Normal (VStr "0.0.0") /\
  snd (getExpectedKongVersion bareFile noInfo)
  = Throw (newError "package.json does not contain config.kongversion!").
Proof. split; reflexivity. Qed.

End PackageFacts.

(** ** Listing the composite APIs, and the plugins of an API *)

Module ApisFacts.
Import Kong KongFacts KongSpec Util Apis Examples MoreExamples.

Lemma sameValueZero_string k a : sameValueZero k (VStr a) = true -> k = VStr a.
Proof.
  destruct k; simpl; try discriminate. intro H. apply String.eqb_eq in H. now subst.
Qed.

(** Reading a string key after a write under a string key. *)
Lemma mapGet_mapSet a b v m :
  mapGet (VStr a) (mapSet (VStr b) v m)
  = if String.eqb b a then Some v else mapGet (VStr a) m.
Proof.
  induction m as [|[k0 v0] m IH]; simpl.
  - reflexivity.
  - destruct (sameValueZero k0 (VStr b)) eqn:Eb; simpl.
    + apply sameValueZero_string in Eb. subst k0. simpl.
      now destruct (String.eqb b a).
    + rewrite IH. destruct (sameValueZero k0 (VStr a)) eqn:Ea; [|reflexivity].
      apply sameValueZero_string in Ea. subst k0. simpl in Eb.
      destruct (String.eqb b a) eqn:E; [|reflexivity].
      apply String.eqb_eq in E. subst b. now rewrite String.eqb_refl in Eb.
Qed.

Section Join.
Context {env : Env}.

(** Step 1 builds, from services with string ids, a map that answers each
    id with the last service that has it. *)
Lemma indexServices_last services :
  Forall stringId services ->
  forall m, exists m',
    indexServices m services = Normal m' /\
    forall rid, mapGet (VStr rid) m'
                = match lastWithId services rid with
                  | Some s => Some s
                  | None => mapGet (VStr rid) m
                  end.
Proof.
  induction 1 as [|s services [sid Hsid] _ IH]; intro m.
  - exists m. split; reflexivity.
  - destruct (IH (mapSet (VStr sid) s m)) as (m' & Hrun & Hget).
    exists m'. split; [simpl; rewrite Hsid; exact Hrun|].
    intro rid. rewrite Hget. simpl.
    destruct (lastWithId services rid); [reflexivity|].
    rewrite mapGet_mapSet. unfold idIs. rewrite Hsid. simpl.
    now destruct (String.eqb sid rid).
Qed.

Lemma matchRoutes_length m routes :
  forall apis, matchRoutes m routes = Normal apis ->
               List.length apis <= List.length routes.
Proof.
  induction routes as [|r routes IH]; simpl; intros apis H.
  - injection H as <-. simpl. lia.
  - destruct (getProp r "service") as [ref|e]; simpl in H; [|discriminate].
    destruct (getProp ref "id") as [id|e]; simpl in H; [|discriminate].
    destruct (mapGet id m) as [s|].
    + destruct (kongServiceRouteToApi s r) as [api|e]; simpl in H; [|discriminate].
      destruct (matchRoutes m routes) as [rest|e]; simpl in H; [|discriminate].
      injection H as <-. simpl. specialize (IH rest eq_refl). lia.
    + specialize (IH apis H). lia.
Qed.

(** The listing of APIs goes route by route: a route is joined with the
    last service of the listing that has the id it refers to, and skipped
    when no service has it; so there are never more APIs than routes, and
    a service without a route gives none. *)
Theorem joinApis_by_route services :
  Forall stringId services ->
  joinApis services [] = Normal [] /\
  (forall r rid routes,
     refersTo r rid ->
     joinApis services (r :: routes)
     = match lastWithId services rid with
       | None => joinApis services routes
       | Some s =>
           api <- kongServiceRouteToApi s r ;;
           apis <- joinApis services routes ;;
           Normal (api :: apis)
       end) /\
  (forall routes apis,
     joinApis services routes = Normal apis ->
     List.length apis <= List.length routes).
Proof.
  intro Hs. destruct (indexServices_last services Hs []) as (m & Hrun & Hget).
  unfold joinApis. rewrite Hrun. simpl. split; [reflexivity|]. split.
  - intros r rid routes (ref & Href & Hid). rewrite Href. simpl. rewrite Hid. simpl.
    rewrite Hget. simpl. now destruct (lastWithId services rid).
  - intros routes apis. apply matchRoutes_length.
Qed.

(** *** The plugin of an API *)

(** [kongPatchApiPlugin] sends its update to [plugins/<pluginId>], with
    [id] and [service_id] of the body set to the two ids it was given,
    whatever the plugin said, and the other properties as they were. *)
Theorem kongPatchApiPlugin_request apiId pluginId plugin w :
  let body := setProp "id" (VStr pluginId) (setProp "service_id" (VStr apiId) plugin) in
  let r := requestOf PATCH ("plugins/" ++ pluginId) (VObj body) w in
  (exists n, sent (kongPatchApiPlugin apiId pluginId plugin record w)
             = (sent w ++ repeat r n)%list) /\
  reqMethod r = PATCH /\
  reqBody r = Some (VObj body) /\
  lookup "id" body = Some (VStr pluginId) /\
  lookup "service_id" body = Some (VStr apiId) /\
  (forall k, k <> "id" -> k <> "service_id" -> lookup k body = lookup k plugin).
Proof.
  intros body r. split; [|repeat split].
  - apply kongAction_sent.
  - apply lookup_setProp.
  - unfold body. rewrite ApiMore.lookup_setProp_other by discriminate.
    apply lookup_setProp.
  - intros k Hid Hsid. unfold body.
    now rewrite !ApiMore.lookup_setProp_other.
Qed.

End Join.

Lemma joinApis_by_route_witness :
  @joinApis (scripted [] []) listedServices listedRoutes
  = Normal [VObj [("service", VObj [("id", VStr "s-1"); ("host", VStr "petstore.local")]);
                  ("route", VObj [("id", VStr "r-1");
                                  ("service", VObj [("id", VStr "s-1")])])]].
Proof.
  assert (Hs : Forall stringId listedServices).
  { unfold listedServices. repeat constructor; eexists; reflexivity. }
  destruct (@joinApis_by_route (scripted [] []) listedServices Hs) as (Hnil & Hstep & _).
  unfold listedRoutes.
  rewrite (Hstep _ "s-1"); [|eexists; split; reflexivity].
  rewrite (Hstep _ "s-gone"); [|eexists; split; reflexivity].
  rewrite Hnil. reflexivity.
Defined.

End ApisFacts.
